(** * Binlog synchronisation loop of [storage/binlogsync] and the
      replication position of [storage/csdb]

    A shallow embedding of [startSyncBinlog] and [handleRowsEvent]
    (storage/binlogsync/sync.go) together with the collaborators they
    call.  The loop is an endless [for] that talks to an event source, to
    the registered handlers, to the clock and to the checkpoint store; it
    is embedded as a state-passing computation that also records, in
    order, every call that crosses the boundary of the loop.  What the
    outside world answers in one iteration is an explicit input
    ([World]); a run of the loop is driven by a finite script of such
    answers, that is by a finite prefix of an execution. *)

From Stdlib Require Import ZArith List String Ascii Bool Lia.
Import ListNotations.

Local Open Scope string_scope.
Local Open Scope list_scope.
Local Open Scope Z_scope.

(** ** Machine integers and durations *)

Module GoInt.

(** Go's conversions between integer types keep the low bits. *)
Definition to_uint32 (z : Z) : Z := z mod 2 ^ 32.
Definition to_uint64 (z : Z) : Z := z mod 2 ^ 64.

(** [uint] is 64 bits wide on the platforms the package targets. *)
Definition to_uint (z : Z) : Z := to_uint64 z.

(** Signed 64-bit wrap-around ([int], [int64], [time.Duration]). *)
Definition to_int64 (z : Z) : Z := (z + 2 ^ 63) mod 2 ^ 64 - 2 ^ 63.
Definition to_int (z : Z) : Z := to_int64 z.

Definition is_uint32 (z : Z) : Prop := 0 <= z < 2 ^ 32.
Definition is_uint64 (z : Z) : Prop := 0 <= z < 2 ^ 64.
Definition is_int64 (z : Z) : Prop := - 2 ^ 63 <= z < 2 ^ 63.

End GoInt.

(** [time.Duration] counts nanoseconds in an [int64]. *)
Definition Duration := Z.
Definition Second : Duration := 1000000000.

(** ** Replication position ([csdb.MasterStatus]) *)

(** Modelled from the spec: the struct [csdb.MasterStatus] is declared
    in a file of package csdb other than its test; it is the spec's
    Position, "{segment: string, offset: uint64}".  The field names are
    those [TestMasterStatus_Compare] and [TestShowMasterStatus] use, the
    latter reading them back from [SHOW MASTER STATUS]. *)
Record MasterStatus := mkMasterStatus {
  File : string;
  Position : Z;
  Binlog_Do_DB : string;
  Binlog_Ignore_DB : string;
  Executed_Gtid_Set : string
}.

Definition set_File (f : string) (ms : MasterStatus) : MasterStatus :=
  mkMasterStatus f (Position ms) (Binlog_Do_DB ms) (Binlog_Ignore_DB ms)
                 (Executed_Gtid_Set ms).

Definition set_Position (p : Z) (ms : MasterStatus) : MasterStatus :=
  mkMasterStatus (File ms) p (Binlog_Do_DB ms) (Binlog_Ignore_DB ms)
                 (Executed_Gtid_Set ms).

(** The composite literal [csdb.MasterStatus{File: f, Position: p}]. *)
Definition MasterStatusAt (f : string) (p : Z) : MasterStatus :=
  mkMasterStatus f p "" "" "".

(** Modelled from the spec: [MasterStatus.Compare] is called by
    [TestMasterStatus_Compare]; its body is in a file of package csdb
    other than the test.  "Compare segment lexicographically first; if
    equal, compare offset numerically", with results in -1, 0, 1.  Go
    compares strings byte by byte, which is [String.compare]. *)
Definition Compare (ms other : MasterStatus) : Z :=
  match String.compare (File ms) (File other) with
  | Lt => -1
  | Gt => 1
  | Eq =>
      match Z.compare (Position ms) (Position other) with
      | Lt => -1
      | Gt => 1
      | Eq => 0
      end
  end.

(** The rows of the table in [TestMasterStatus_Compare]. *)
Definition TestMasterStatus_Compare_tests : list (MasterStatus * MasterStatus * Z) :=
  [ (MasterStatusAt "mysql-bin.000001" 3, MasterStatusAt "mysql-bin.000001" 4, -1);
    (MasterStatusAt "mysql-bin.000001" 3, MasterStatusAt "mysql-bin.000001" 3, 0);
    (MasterStatusAt "mysql-bin.000001" 3, MasterStatusAt "mysql-bin.000001" 2, 1);
    (MasterStatusAt "mysql-bin.000001" 3, MasterStatusAt "mysql-bin.000002" 2, -1);
    (MasterStatusAt "mysql-bin.000003" 1, MasterStatusAt "mysql-bin.000002" 2, 1) ].

Definition TestMasterStatus_Compare : bool :=
  forallb (fun t => let '(l, r, want) := t in Z.eqb (Compare l r) want)
          TestMasterStatus_Compare_tests.

(** ** Errors *)

(** Go's [error] values as far as the loop tells them apart:
    [context.DeadlineExceeded] is a sentinel compared with [==]; the
    errors package builds fatal and not-supported errors and wraps
    others; every other error a collaborator hands back is [ErrOther].
    Messages are kept as written in the source, before formatting. *)
Inductive error :=
| DeadlineExceeded
| ErrOther (msg : string)
| Fatal (msg : string)
| NotSupported (msg : string)
| Wrap (cause : error) (msg : string).

Fixpoint error_eqb (a b : error) : bool :=
  match a, b with
  | DeadlineExceeded, DeadlineExceeded => true
  | ErrOther m, ErrOther n => String.eqb m n
  | Fatal m, Fatal n => String.eqb m n
  | NotSupported m, NotSupported n => String.eqb m n
  | Wrap c m, Wrap d n => error_eqb c d && String.eqb m n
  | _, _ => false
  end.

(** The error at the bottom of a chain of wraps. *)
Fixpoint Cause (e : error) : error :=
  match e with
  | Wrap c _ => Cause c
  | _ => e
  end.

Definition IsNotSupported (e : error) : bool :=
  match Cause e with NotSupported _ => true | _ => false end.

(** ** Binlog events (go-mysql's [replication] package) *)

(** [EventType] is a byte; the constants are the type codes of the MySQL
    binlog protocol. *)
Definition EventType := Z.

Module replication.
Definition QUERY_EVENT : EventType := 2.
Definition ROTATE_EVENT : EventType := 4.
Definition XID_EVENT : EventType := 16.
Definition TABLE_MAP_EVENT : EventType := 19.
Definition WRITE_ROWS_EVENTv0 : EventType := 20.
Definition UPDATE_ROWS_EVENTv0 : EventType := 21.
Definition DELETE_ROWS_EVENTv0 : EventType := 22.
Definition WRITE_ROWS_EVENTv1 : EventType := 23.
Definition UPDATE_ROWS_EVENTv1 : EventType := 24.
Definition DELETE_ROWS_EVENTv1 : EventType := 25.
Definition WRITE_ROWS_EVENTv2 : EventType := 30.
Definition UPDATE_ROWS_EVENTv2 : EventType := 31.
Definition DELETE_ROWS_EVENTv2 : EventType := 32.
End replication.

(** A cell of a row is an [interface{}]. *)
Inductive Cell :=
| CNil
| CInt (z : Z)
| CStr (s : string).

Definition Rows := list (list Cell).

Record EventHeader := {
  EventType_ : EventType;   (* Header.EventType *)
  LogPos : Z                (* uint32: offset of the end of the event *)
}.

Record RotateEvent := {
  Rotate_Position : Z;      (* uint64 *)
  NextLogName : string
}.

Record RowsEvent := {
  TableID : Z;              (* uint64 *)
  Table_Schema : string;    (* ev.Table.Schema *)
  Table_Table : string;     (* ev.Table.Table *)
  Rows_ : Rows
}.

(** The dynamic type of [BinlogEvent.Event]; the loop tells three of
    them apart and lets every other one through. *)
Inductive Event :=
| EvRotate (e : RotateEvent)
| EvRows (e : RowsEvent)
| EvTableMap (id : Z) (schema table : string)
| EvOther.

Record BinlogEvent := {
  Header : EventHeader;
  Event_ : Event
}.

(** The fields hold values of their Go types. *)
Definition wf_event (ev : BinlogEvent) : Prop :=
  GoInt.is_uint32 (LogPos (Header ev)) /\
  0 <= EventType_ (Header ev) < 256 /\
  match Event_ ev with
  | EvRotate e => GoInt.is_uint64 (Rotate_Position e)
  | EvRows e => GoInt.is_uint64 (TableID e)
  | EvTableMap id _ _ => GoInt.is_uint64 id
  | EvOther => True
  end.

(** ** Handlers, the canal and the outside world *)

(** Modelled from the spec: [*csdb.Table], as [FindTable] hands it out,
    is declared in package csdb; it is the spec's TableSchema, of which
    the loop looks at nothing, kept here as its name. *)
Inductive Table := mkTable (name : string).

Definition UpdateAction := "update".
Definition InsertAction := "insert".
Definition DeleteAction := "delete".

(** Modelled from the spec: the handler capability, "[OnRowChange(ctx,
    RowChangeEvent) -> error; OnFlush(ctx, Position) -> error]".  The
    row change is passed the way line 124 of sync.go passes it: action,
    table and rows. *)
Record RowsEventHandler := {
  OnRowChange : string -> Table -> Rows -> option error;
  OnFlush : MasterStatus -> option error
}.

(** Modelled from the spec: the struct of the receiver [c *Canal] is
    declared in another file of package binlogsync.  [masterStatus],
    [dsn.DBName] and [Log] are the fields sync.go reads; [masterStatus]
    is a struct value: [pos := c.masterStatus] copies it and the loop
    writes it back through [masterUpdate] only.  The other fields follow
    the spec: the handler registration ("an append-only ordered
    sequence"), the time of the last successful persist and whether a
    checkpoint store is configured. *)
Record Canal := {
  dsn_DBName : string;
  masterStatus : MasterStatus;
  Log_IsInfo : bool;
  Log_IsDebug : bool;
  rsHandlers : list RowsEventHandler;
  masterLastSaveTime : Z;
  hasCheckpointStore : bool
}.

Definition set_masterStatus (ms : MasterStatus) (c : Canal) : Canal :=
  {| dsn_DBName := dsn_DBName c; masterStatus := ms;
     Log_IsInfo := Log_IsInfo c; Log_IsDebug := Log_IsDebug c;
     rsHandlers := rsHandlers c;
     masterLastSaveTime := masterLastSaveTime c;
     hasCheckpointStore := hasCheckpointStore c |}.

Definition set_masterLastSaveTime (t : Z) (c : Canal) : Canal :=
  {| dsn_DBName := dsn_DBName c; masterStatus := masterStatus c;
     Log_IsInfo := Log_IsInfo c; Log_IsDebug := Log_IsDebug c;
     rsHandlers := rsHandlers c;
     masterLastSaveTime := t;
     hasCheckpointStore := hasCheckpointStore c |}.

(** What the outside world answers during one iteration of the loop:
    the event source to [GetEvent], the schema cache to [FindTable]
    (a method of the canal defined in another file, taken here by its
    outcome), the clock and the checkpoint store to [masterSave]. *)
Record World := {
  GetEvent : BinlogEvent + error;
  FindTable : Z -> string -> Table + error;
  Now : Z;
  Write : MasterStatus -> option error
}.

(** Every call that leaves the loop, in the order it is made. *)
Inductive Call :=
| CallStartSync (name : string) (pos : Z)
| CallGetEvent (wait : Duration)
| CallOnFlush (handler : nat) (visible : MasterStatus)
| CallFindTable (id : Z) (table : string)
| CallOnRowChange (handler : nat) (action : string) (t : Table) (rows : Rows)
| CallMasterUpdate (file : string) (pos : Z)
| CallMasterSave
| CallWrite (ms : MasterStatus) (res : option error)
| LogInfo (msg : string)
| LogDebug (msg : string).

(** ** The computation monad: canal state and call trace *)

Definition M (A : Type) : Type := Canal -> A * Canal * list Call.

Definition ret {A} (a : A) : M A := fun c => (a, c, []).

Definition bind {A B} (m : M A) (k : A -> M B) : M B :=
  fun c =>
    let '(a, c1, t1) := m c in
    let '(b, c2, t2) := k a c1 in
    (b, c2, t1 ++ t2).

Definition call (x : Call) : M unit := fun c => (tt, c, [x]).
Definition get : M Canal := fun c => (c, c, []).
Definition modify (f : Canal -> Canal) : M unit := fun c => (tt, f c, []).
Definition when (b : bool) (m : M unit) : M unit := if b then m else ret tt.

Declare Scope canal_scope.
Delimit Scope canal_scope with canal.
Notation "x <- m ;; k" := (bind m (fun x => k))
  (at level 61, m at next level, right associativity) : canal_scope.
Notation "m ;;; k" := (bind m (fun _ => k))
  (at level 61, right associativity) : canal_scope.

Definition result {A} (r : A * Canal * list Call) : A := fst (fst r).
Definition canal {A} (r : A * Canal * list Call) : Canal := snd (fst r).
Definition trace {A} (r : A * Canal * list Call) : list Call := snd r.

Local Open Scope canal_scope.

(** ** Collaborators of the loop inside the canal *)

(** Modelled from the spec: [masterUpdate], defined in another file of
    the package, is the canal's Advance: it "unconditionally replaces
    the current position" by the segment and offset it is given. *)
Definition masterUpdate (fileName : string) (pos : Z) : M unit :=
  call (CallMasterUpdate fileName pos) ;;;
  modify (fun c =>
    set_masterStatus (set_Position pos (set_File fileName (masterStatus c))) c).

(** Modelled from the spec: [masterSave], defined in another file of
    the package, is the canal's Persist: it "writes the current position
    to the checkpoint store, but only if at least one time unit (one
    second) has elapsed since the last successful persist; otherwise it
    is a silent no-op returning no error"; without a checkpoint store it
    "is a no-op (treated as success)", observable through a log hook.
    The clock reading and the store's answer come from the world. *)
Definition masterSave (w : World) : M (option error) :=
  call CallMasterSave ;;;
  c <- get ;;
  if negb (hasCheckpointStore c) then
    call (LogDebug "[binlogsync] Master Status cannot be saved: no checkpoint store") ;;;
    ret None
  else if Now w - masterLastSaveTime c <? Second then
    ret None
  else
    let res := Write w (masterStatus c) in
    call (CallWrite (masterStatus c) res) ;;;
    match res with
    | Some err => ret (Some err)
    | None => modify (set_masterLastSaveTime (Now w)) ;;; ret None
    end.

(** Modelled from the spec: the loop of [flushEventHandlers], which is
    defined in another file of the package; it is to "invoke a flush
    notification on all handlers", each an [OnFlush(ctx, Position)].
    The position a handler is shown is the canal's own, the only one the
    call on line 57 of sync.go can reach.  The spec leaves open what an
    error of one handler does to the others: here all are notified and
    the first error is reported. *)
Fixpoint flushFrom (i : nat) (hs : list RowsEventHandler) : M (option error) :=
  match hs with
  | [] => ret None
  | h :: hs' =>
      c <- get ;;
      call (CallOnFlush i (masterStatus c)) ;;;
      let r := OnFlush h (masterStatus c) in
      r' <- flushFrom (S i) hs' ;;
      ret (match r with Some err => Some err | None => r' end)
  end.

(** Modelled from the spec: [flushEventHandlers] notifies the handlers
    registered with the canal, from the first on. *)
Definition flushEventHandlers : M (option error) :=
  c <- get ;;
  flushFrom 0 (rsHandlers c).

(** Modelled from the spec: the loop of [travelRowsEventHandler], which
    is defined in another file of the package; it is to "dispatch the
    resulting RowChangeEvent synchronously to every registered handler,
    in registration order.  The first handler to return an error aborts
    dispatch for that event and is propagated up". *)
Fixpoint travelFrom (i : nat) (hs : list RowsEventHandler)
    (action : string) (t : Table) (rows : Rows) : M (option error) :=
  match hs with
  | [] => ret None
  | h :: hs' =>
      call (CallOnRowChange i action t rows) ;;;
      match OnRowChange h action t rows with
      | Some err => ret (Some err)
      | None => travelFrom (S i) hs' action t rows
      end
  end.

(** Modelled from the spec: [travelRowsEventHandler] dispatches to the
    handlers registered with the canal, from the first on. *)
Definition travelRowsEventHandler (action : string) (t : Table) (rows : Rows)
    : M (option error) :=
  c <- get ;;
  travelFrom 0 (rsHandlers c) action t rows.

(** ** sync.go *)

(** The [switch e.Header.EventType] of [handleRowsEvent]: the action, or
    nothing in the [default] case. *)
Definition switch_EventType (ty : EventType) : option string :=
  if (ty =? replication.WRITE_ROWS_EVENTv1) || (ty =? replication.WRITE_ROWS_EVENTv2)
  then Some InsertAction
  else if (ty =? replication.DELETE_ROWS_EVENTv1) || (ty =? replication.DELETE_ROWS_EVENTv2)
  then Some DeleteAction
  else if (ty =? replication.UPDATE_ROWS_EVENTv1) || (ty =? replication.UPDATE_ROWS_EVENTv2)
  then Some UpdateAction
  else None.

Definition handleRowsEvent (w : World) (e : BinlogEvent) : M (option error) :=
  match Event_ e with
  | EvRows ev =>
      c <- get ;;
      let in_ := Table_Schema ev in
      if negb (String.eqb (dsn_DBName c) in_) then
        when (Log_IsDebug c) (call (LogDebug "[binlogsync] Skipping database")) ;;;
        ret None
      else
        let table := Table_Table ev in
        call (CallFindTable (GoInt.to_int (TableID ev)) table) ;;;
        match FindTable w (GoInt.to_int (TableID ev)) table with
        | inr err => ret (Some (Wrap err "[binlogsync] GetTable %q.%q"))
        | inl t =>
            match switch_EventType (EventType_ (Header e)) with
            | Some action => travelRowsEventHandler action t (Rows_ ev)
            | None =>
                ret (Some (NotSupported "[binlogsync] EventType %v not yet supported"))
            end
        end
  | _ =>
      ret (Some (Fatal
        "[binlogsync] handleRowsEvent: Failed to cast to *replication.RowsEvent type"))
  end.

(** How one pass through the body of the [for] ends: with the next
    pass, carrying the loop's variables, or with [return err]. *)
Inductive Flow :=
| Continue (pos : MasterStatus) (timeout : Duration)
| Return (err : error).

(** Lines 83 to 86: what follows the [switch]. *)
Definition savePosition (w : World) (pos : MasterStatus) (timeout : Duration) : M Flow :=
  masterUpdate (File pos) (Position pos) ;;;
  r <- masterSave w ;;
  match r with
  | Some err =>
      call (LogInfo "[binlogsync] startSyncBinlog: Failed to save master position")
  | None => ret tt
  end ;;;
  ret (Continue pos timeout).

(** Lines 38 to 86: the body of the [for]. *)
Definition iteration (w : World) (pos : MasterStatus) (timeout : Duration) : M Flow :=
  call (CallGetEvent (2 * Second)) ;;;
  match GetEvent w with
  | inr err =>
      if error_eqb err DeadlineExceeded then
        ret (Continue pos (GoInt.to_int64 (2 * timeout)))
      else
        ret (Return (Wrap err "[binlogsync] startSyncBinlog.GetEvent"))
  | inl ev =>
      let timeout := Second in
      let pos := set_Position (GoInt.to_uint (LogPos (Header ev))) pos in
      match Event_ ev with
      | EvRotate e =>
          r <- flushEventHandlers ;;
          match r with
          | Some err =>
              ret (Return (Wrap err "[binlogsync] startSyncBinlog.flushEventHandlers"))
          | None =>
              let pos := set_File (NextLogName e) pos in
              let pos := set_Position (GoInt.to_uint (Rotate_Position e)) pos in
              c <- get ;;
              when (Log_IsInfo c)
                   (call (LogInfo "[binlogsync] Rotate binlog to a new position")) ;;;
              savePosition w pos timeout
          end
      | EvRows _ =>
          r <- handleRowsEvent w ev ;;
          match r with
          | Some err =>
              c <- get ;;
              when (Log_IsInfo c)
                   (call (LogInfo "[binlogsync] Rotate binlog to a new position")) ;;;
              ret (Return (Wrap err "[binlogsync] handleRowsEvent"))
          | None => savePosition w pos timeout
          end
      | EvTableMap _ _ _ => ret (Continue pos timeout)
      | EvOther => savePosition w pos timeout
      end
  end.

(** Where a run stands once the script of answers is used up: the loop
    has returned, or it is about to wait for the next event. *)
Inductive Outcome :=
| Returned (err : error)
| Waiting (pos : MasterStatus) (timeout : Duration).

Fixpoint forLoop (ws : list World) (pos : MasterStatus) (timeout : Duration) : M Outcome :=
  match ws with
  | [] => ret (Waiting pos timeout)
  | w :: ws' =>
      f <- iteration w pos timeout ;;
      match f with
      | Continue pos' timeout' => forLoop ws' pos' timeout'
      | Return err => ret (Returned err)
      end
  end.

(** [start] is the error of [c.syncer.StartSync], if any. *)
Definition startSyncBinlog (start : option error) (ws : list World) : M Outcome :=
  c <- get ;;
  let pos := masterStatus c in
  when (Log_IsInfo c) (call (LogInfo "[binlogsync] Start syncing of binlog")) ;;;
  call (CallStartSync (File pos) (GoInt.to_uint32 (Position pos))) ;;;
  match start with
  | Some err =>
      ret (Returned (Fatal "[binlogsync] Start sync replication at %s error %v"))
  | None => forLoop ws pos Second
  end.

(** ** Reading traces *)

Definition isGetEvent (x : Call) : bool :=
  match x with CallGetEvent _ => true | _ => false end.
Definition isOnFlush (x : Call) : bool :=
  match x with CallOnFlush _ _ => true | _ => false end.
Definition isFindTable (x : Call) : bool :=
  match x with CallFindTable _ _ => true | _ => false end.
Definition isOnRowChange (x : Call) : bool :=
  match x with CallOnRowChange _ _ _ _ => true | _ => false end.
Definition isMasterUpdate (x : Call) : bool :=
  match x with CallMasterUpdate _ _ => true | _ => false end.
Definition isMasterSave (x : Call) : bool :=
  match x with CallMasterSave => true | _ => false end.
Definition isWritten (x : Call) : bool :=
  match x with CallWrite _ None => true | _ => false end.
Definition isLog (x : Call) : bool :=
  match x with LogInfo _ | LogDebug _ => true | _ => false end.

(** What [masterSave] leaves in the trace after its own entry: the write
    to the checkpoint store and log lines. *)
Definition isSaveEffect (x : Call) : bool :=
  match x with CallWrite _ _ | LogInfo _ | LogDebug _ => true | _ => false end.

(** The number of writes the checkpoint store accepted. *)
Definition writes (t : list Call) : nat := List.length (filter isWritten t).

(** The waits handed to [GetEvent]. *)
Fixpoint waits (t : list Call) : list Duration :=
  match t with
  | [] => []
  | CallGetEvent d :: t' => d :: waits t'
  | _ :: t' => waits t'
  end.

(** The first error in a sequence of handler results. *)
Fixpoint firstError (rs : list (option error)) : option error :=
  match rs with
  | [] => None
  | Some err :: _ => Some err
  | None :: rs' => firstError rs'
  end.

(** The trace ends with [masterUpdate(f, p)] followed by [masterSave()]:
    no position update or save before them, and after them only what the
    save itself does. *)
Definition advanceThenPersist (f : string) (p : Z) (t : list Call) : Prop :=
  exists pre post,
    t = pre ++ CallMasterUpdate f p :: CallMasterSave :: post /\
    forallb (fun x => negb (isMasterUpdate x || isMasterSave x)) pre = true /\
    forallb isSaveEffect post = true.

(** The position the loop holds after line 53. *)
Definition atLogPos (pos : MasterStatus) (ev : BinlogEvent) : MasterStatus :=
  set_Position (GoInt.to_uint (LogPos (Header ev))) pos.

(** The position the loop holds after the [switch], for an event that
    reaches line 83. *)
Definition positionAfter (ev : BinlogEvent) (pos : MasterStatus) : MasterStatus :=
  let pos := set_Position (GoInt.to_uint (LogPos (Header ev))) pos in
  match Event_ ev with
  | EvRotate e =>
      set_Position (GoInt.to_uint (Rotate_Position e)) (set_File (NextLogName e) pos)
  | _ => pos
  end.

Definition isTableMap (ev : BinlogEvent) : bool :=
  match Event_ ev with EvTableMap _ _ _ => true | _ => false end.

(** A world whose event source has nothing new within the wait. *)
Definition waitTimeout (w : World) : World :=
  {| GetEvent := inr DeadlineExceeded; FindTable := FindTable w;
     Now := Now w; Write := Write w |}.

(** Flows and outcomes up to the value of the loop's [timeout] variable. *)
Definition sameFlow (a b : Flow) : Prop :=
  match a, b with
  | Continue p1 _, Continue p2 _ => p1 = p2
  | Return e1, Return e2 => e1 = e2
  | _, _ => False
  end.

Definition sameOutcome (a b : Outcome) : Prop :=
  match a, b with
  | Returned e1, Returned e2 => e1 = e2
  | Waiting p1 _, Waiting p2 _ => p1 = p2
  | _, _ => False
  end.

(** The loop's [timeout] variable after [n] wait-timeouts in a row. *)
Definition doubled (n : nat) (timeout : Duration) : Duration :=
  Nat.iter n (fun d => GoInt.to_int64 (2 * d)) timeout.



(** ** Sample canals, events and worlds *)

Module Sample.

Definition accept : RowsEventHandler :=
  {| OnRowChange := fun _ _ _ => None; OnFlush := fun _ => None |}.

Definition reject (msg : string) : RowsEventHandler :=
  {| OnRowChange := fun _ _ _ => Some (ErrOther msg); OnFlush := fun _ => None |}.

(** A canal on database shop at log.1:100 with three handlers, the
    second of which refuses every row change. *)
Definition shop : Canal :=
  {| dsn_DBName := "shop";
     masterStatus := MasterStatusAt "log.1" 100;
     Log_IsInfo := false;
     Log_IsDebug := false;
     rsHandlers := [accept; reject "boom"; accept];
     masterLastSaveTime := 0;
     hasCheckpointStore := true |}.

(** The same canal with two handlers that accept everything. *)
Definition quietShop : Canal :=
  {| dsn_DBName := "shop";
     masterStatus := MasterStatusAt "log.1" 100;
     Log_IsInfo := true;
     Log_IsDebug := true;
     rsHandlers := [accept; accept];
     masterLastSaveTime := 0;
     hasCheckpointStore := true |}.

(** The first canal without a checkpoint store. *)
Definition storeless : Canal :=
  {| dsn_DBName := "shop";
     masterStatus := MasterStatusAt "log.1" 100;
     Log_IsInfo := false;
     Log_IsDebug := false;
     rsHandlers := [accept; reject "boom"; accept];
     masterLastSaveTime := 0;
     hasCheckpointStore := false |}.

Definition orders : Table := mkTable "orders".

(** A world at clock reading [now] whose checkpoint store answers
    [wr]. *)
Definition world (g : BinlogEvent + error) (now : Z) (wr : option error) : World :=
  {| GetEvent := g;
     FindTable := fun _ _ => inl orders;
     Now := now;
     Write := fun _ => wr |}.

Definition tableMap : BinlogEvent :=
  {| Header := {| EventType_ := replication.TABLE_MAP_EVENT; LogPos := 150 |};
     Event_ := EvTableMap 7 "shop" "orders" |}.

Definition rotate : BinlogEvent :=
  {| Header := {| EventType_ := replication.ROTATE_EVENT; LogPos := 180 |};
     Event_ := EvRotate {| Rotate_Position := 4; NextLogName := "log.2" |} |}.

Definition rows (db : string) (ty : EventType) : BinlogEvent :=
  {| Header := {| EventType_ := ty; LogPos := 200 |};
     Event_ := EvRows {| TableID := 7; Table_Schema := db;
                         Table_Table := "orders"; Rows_ := [[CInt 1]] |} |}.

Definition xid : BinlogEvent :=
  {| Header := {| EventType_ := replication.XID_EVENT; LogPos := 231 |};
     Event_ := EvOther |}.

(** Five seconds on the clock. *)
Definition at5s : Z := 5 * Second.

(** Worlds that deliver one of the events above to a store that
    accepts every write. *)
Definition deliver (ev : BinlogEvent) : World := world (inl ev) at5s None.

(** A world in which no table can be resolved. *)
Definition tableless (ev : BinlogEvent) : World :=
  {| GetEvent := inl ev;
     FindTable := fun _ _ => inr (ErrOther "no such table");
     Now := at5s;
     Write := fun _ => None |}.

(** A world whose checkpoint store refuses the write. *)
Definition diskFull (ev : BinlogEvent) : World :=
  world (inl ev) at5s (Some (ErrOther "disk full")).


End Sample.

(** ** canal.go *)

(** The methods of the canal that sync.go calls and the one that calls
    [startSyncBinlog], from canal.go of package binlogsync.  The canal
    record above carries the fields they use: [cfgw] set is
    [hasCheckpointStore]; the answer of [BackendPosition.Write] and the
    reading of [time.Now] come from the world.  Mutexes are left out:
    the methods are followed one call at a time. *)
Module CanalGo.

Definition minDuration : Duration := - 2 ^ 63.
Definition maxDuration : Duration := 2 ^ 63 - 1.

(** [t.Sub(u)] of package time: the difference, or the largest or
    smallest [Duration] when it does not fit. *)
Definition Sub (t u : Z) : Duration :=
  if maxDuration <? t - u then maxDuration
  else if t - u <? minDuration then minDuration
  else t - u.

(** Lines 465 to 490.  The value written is [c.masterStatus.String()];
    the trace keeps the status itself. *)
Definition masterSave (w : World) : M (option error) :=
  call CallMasterSave ;;;
  c <- get ;;
  let n := Now w in
  if Sub n (masterLastSaveTime c) <? Second then
    ret None
  else if negb (hasCheckpointStore c) then
    when (Log_IsDebug c)
         (call (LogDebug
            "[binlogsync] Master Status cannot be saved because config.Writer is nil")) ;;;
    ret None
  else
    let res := Write w (masterStatus c) in
    call (CallWrite (masterStatus c) res) ;;;
    match res with
    | Some err => ret (Some (Wrap err "[binlogsync] failed to write into config"))
    | None => modify (set_masterLastSaveTime n) ;;; ret None
    end.

(** Lines 492 to 497. *)
Definition masterUpdate (fileName : string) (pos : Z) : M unit :=
  call (CallMasterUpdate fileName pos) ;;;
  modify (fun c => set_masterStatus (set_File fileName (masterStatus c)) c) ;;;
  modify (fun c => set_masterStatus (set_Position pos (masterStatus c)) c).

(** Lines 501 to 505. *)
Definition SyncedPosition : M MasterStatus :=
  c <- get ;;
  ret (masterStatus c).

End CanalGo.

(** *** Closing the canal *)

(** What [Close] works on: the flag [closed] and whether [c.syncer] is
    set.  The mutex [mclose] is left out: calls are followed one at a
    time. *)
Record Conn := {
  closed : bool;
  hasSyncer : bool
}.

(** The calls [Close] makes on the syncer, the database and the wait
    group of the loop. *)
Inductive ConnCall :=
| SyncerClose
| DBClose
| WaitGroupWait.

(** Lines 530 to 532. *)
Definition isClosed (s : Conn) : bool := closed s.

(** Lines 535 to 555; [dbClose] is what [c.db.Close()] answers. *)
Definition Close (dbClose : option error) (s : Conn)
    : option error * Conn * list ConnCall :=
  if isClosed s then (None, s, [])
  else
    let s := {| closed := true; hasSyncer := hasSyncer s |} in
    let '(s, t) :=
      if hasSyncer s
      then ({| closed := closed s; hasSyncer := false |}, [SyncerClose])
      else (s, []) in
    match dbClose with
    | Some err => (Some (Wrap err "[binlogsync] DB close error"), s, t ++ [DBClose])
    | None => (None, s, t ++ [DBClose; WaitGroupWait])
    end.

(** [Close] called once for each answer of the database, in turn. *)
Fixpoint Closes (answers : list (option error)) (s : Conn)
    : list (option error) * Conn * list ConnCall :=
  match answers with
  | [] => ([], s, [])
  | a :: answers' =>
      let '(r, s1, t1) := Close a s in
      let '(rs, s2, t2) := Closes answers' s1 in
      (r :: rs, s2, t1 ++ t2)
  end.

Definition isWait (x : ConnCall) : bool :=
  match x with WaitGroupWait => true | _ => false end.

(** *** Parameters of the DSN *)

(** A [map[string]string], by what a lookup finds; the nil map finds
    nothing. *)
Definition Params := string -> option string.

Definition noParams : Params := fun _ => None.

Definition setParam (k v : string) (m : Params) : Params :=
  fun k' => if String.eqb k' k then Some v else m k'.

Definition deleteParam (k : string) (m : Params) : Params :=
  fun k' => if String.eqb k' k then None else m k'.

(** [v, ok := m[k]; ok && v != ""]. *)
Definition nonEmpty (o : option string) : bool :=
  match o with
  | Some v => negb (String.eqb v "")
  | None => false
  end.

Definition MySQLFlavor := "mysql".
Definition MariaDBFlavor := "mariadb".

Definition customMySQLParams : list string :=
  ["BinlogStartFile"; "BinlogStartPosition"; "BinlogSlaveId"; "flavor"].

(** Lines 439 to 442 of [NewCanal]: the body of the loop over
    [customMySQLParams], on [c.DSN.Params] and [c.canalParams]. *)
Definition moveParam (st : Params * Params) (p : string) : Params * Params :=
  match fst st p with
  | Some v =>
      if negb (String.eqb v "")
      then (deleteParam p (fst st), setParam p v (snd st))
      else st
  | None => st
  end.

(** Lines 436 to 445 of [NewCanal]. *)
Definition moveCustomParams (dsnParams : option Params) : option Params * Params :=
  match dsnParams with
  | None => (None, noParams)
  | Some m =>
      let st := fold_left moveParam customMySQLParams (m, noParams) in
      (Some (fst st), snd st)
  end.

(** Lines 620 to 633. *)
Definition flavor (canalParams : Params) : string :=
  let f := match canalParams "flavor" with
           | Some v => if negb (String.eqb v "") then v else ""
           | None => ""
           end in
  let f := if String.eqb f "" then MySQLFlavor else f in
  if String.eqb f MariaDBFlavor then MariaDBFlavor else MySQLFlavor.

(** Lines 362 to 381.  [loaded] is what [dml.Load] finds; [ToUint] is
    [conv.ToUint], of a package that is not part of these files. *)
Definition withUpdateBinlogStart (ToUint : string -> Z) (canalParams : Params)
    (loaded : MasterStatus + error) (c : Canal) : Canal + error :=
  match loaded with
  | inr err => inr (Wrap err "[binlogsync] ShowMasterStatus Load")
  | inl ms =>
      let c := set_masterStatus ms c in
      let c := match canalParams "BinlogStartFile" with
               | Some v =>
                   if negb (String.eqb v "")
                   then set_masterStatus (set_File v (masterStatus c)) c
                   else c
               | None => c
               end in
      let c := match canalParams "BinlogStartPosition" with
               | Some v =>
                   if negb (String.eqb v "")
                   then
                     let hasPos := ToUint v in
                     if 4 <=? hasPos
                     then set_masterStatus (set_Position hasPos (masterStatus c)) c
                     else c
                   else c
               | None => c
               end in
      inl c
  end.

(** ** sync.go, linked with canal.go *)

(** The loop of sync.go once more, over the [masterUpdate] and
    [masterSave] it is given; given the two above it is the loop as the
    package runs it. *)
Section Linked.

Variable update : string -> Z -> M unit.
Variable save : World -> M (option error).

Definition savePositionWith (w : World) (pos : MasterStatus) (timeout : Duration)
    : M Flow :=
  update (File pos) (Position pos) ;;;
  r <- save w ;;
  match r with
  | Some err =>
      call (LogInfo "[binlogsync] startSyncBinlog: Failed to save master position")
  | None => ret tt
  end ;;;
  ret (Continue pos timeout).

Definition iterationWith (w : World) (pos : MasterStatus) (timeout : Duration)
    : M Flow :=
  call (CallGetEvent (2 * Second)) ;;;
  match GetEvent w with
  | inr err =>
      if error_eqb err DeadlineExceeded then
        ret (Continue pos (GoInt.to_int64 (2 * timeout)))
      else
        ret (Return (Wrap err "[binlogsync] startSyncBinlog.GetEvent"))
  | inl ev =>
      let timeout := Second in
      let pos := set_Position (GoInt.to_uint (LogPos (Header ev))) pos in
      match Event_ ev with
      | EvRotate e =>
          r <- flushEventHandlers ;;
          match r with
          | Some err =>
              ret (Return (Wrap err "[binlogsync] startSyncBinlog.flushEventHandlers"))
          | None =>
              let pos := set_File (NextLogName e) pos in
              let pos := set_Position (GoInt.to_uint (Rotate_Position e)) pos in
              c <- get ;;
              when (Log_IsInfo c)
                   (call (LogInfo "[binlogsync] Rotate binlog to a new position")) ;;;
              savePositionWith w pos timeout
          end
      | EvRows _ =>
          r <- handleRowsEvent w ev ;;
          match r with
          | Some err =>
              c <- get ;;
              when (Log_IsInfo c)
                   (call (LogInfo "[binlogsync] Rotate binlog to a new position")) ;;;
              ret (Return (Wrap err "[binlogsync] handleRowsEvent"))
          | None => savePositionWith w pos timeout
          end
      | EvTableMap _ _ _ => ret (Continue pos timeout)
      | EvOther => savePositionWith w pos timeout
      end
  end.

Fixpoint forLoopWith (ws : list World) (pos : MasterStatus) (timeout : Duration)
    : M Outcome :=
  match ws with
  | [] => ret (Waiting pos timeout)
  | w :: ws' =>
      f <- iterationWith w pos timeout ;;
      match f with
      | Continue pos' timeout' => forLoopWith ws' pos' timeout'
      | Return err => ret (Returned err)
      end
  end.

Definition startSyncBinlogWith (start : option error) (ws : list World) : M Outcome :=
  c <- get ;;
  let pos := masterStatus c in
  when (Log_IsInfo c) (call (LogInfo "[binlogsync] Start syncing of binlog")) ;;;
  call (CallStartSync (File pos) (GoInt.to_uint32 (Position pos))) ;;;
  match start with
  | Some err =>
      ret (Returned (Fatal "[binlogsync] Start sync replication at %s error %v"))
  | None => forLoopWith ws pos Second
  end.

End Linked.

Module Linked.

Definition iteration := iterationWith CanalGo.masterUpdate CanalGo.masterSave.
Definition forLoop := forLoopWith CanalGo.masterUpdate CanalGo.masterSave.
Definition startSyncBinlog := startSyncBinlogWith CanalGo.masterUpdate CanalGo.masterSave.

(** Lines 517 to 528 of canal.go: [run], which calls [startSyncBinlog].
    [closed] is what [isClosed] answers when the loop returns; a run
    that has not returned is still [Waiting]. *)
Definition run (closed : bool) (start : option error) (ws : list World) : M Outcome :=
  o <- startSyncBinlog start ws ;;
  match o with
  | Returned err =>
      when (negb closed)
           (call (LogInfo
              "[binlogsync] Canal start has encountered a sync binlog error")) ;;;
      ret (Returned (Wrap err "[binlogsync] run.startSyncBinlog"))
  | Waiting pos timeout => ret (Waiting pos timeout)
  end.

End Linked.

(** A world that delivers another event and answers the same
    otherwise. *)
Definition withEvent (ev : BinlogEvent) (w : World) : World :=
  {| GetEvent := inl ev; FindTable := FindTable w; Now := Now w; Write := Write w |}.

(** Positions that agree on everything but the offset. *)
Definition sameButOffset (a b : MasterStatus) : Prop :=
  set_Position 0 a = set_Position 0 b.

Definition sameOutcomeButOffset (a b : Outcome) : Prop :=
  match a, b with
  | Returned e1, Returned e2 => e1 = e2
  | Waiting p1 d1, Waiting p2 d2 => sameButOffset p1 p2 /\ d1 = d2
  | _, _ => False
  end.

(** The messages under which the loop wraps what it returns. *)
Definition loopOrigins : list string :=
  [ "[binlogsync] startSyncBinlog.GetEvent";
    "[binlogsync] startSyncBinlog.flushEventHandlers";
    "[binlogsync] handleRowsEvent" ].

Definition isDebugLine (x : Call) : bool :=
  match x with LogDebug _ => true | _ => false end.

(** The trace without its debug lines. *)
Definition withoutDebug (t : list Call) : list Call :=
  filter (fun x => negb (isDebugLine x)) t.

Definition isWriteAttempt (x : Call) : bool :=
  match x with CallWrite _ _ => true | _ => false end.

(** Within one pass: nothing written and the time of the last save
    kept, or one write accepted a second or more after the last one,
    whose time becomes the clock reading. *)
Definition wroteAtMostOnce (w : World) (c : Canal) {A} (r : A * Canal * list Call) : Prop :=
  (writes (trace r) = 0%nat /\ masterLastSaveTime (canal r) = masterLastSaveTime c) \/
  (writes (trace r) = 1%nat /\ masterLastSaveTime (canal r) = Now w /\
   Second <= Now w - masterLastSaveTime c).

Definition sameFlowButOffset (a b : Flow) : Prop :=
  match a, b with
  | Return e1, Return e2 => e1 = e2
  | Continue p1 d1, Continue p2 d2 => sameButOffset p1 p2 /\ d1 = d2
  | _, _ => False
  end.

(** The calls [masterUpdate] and [masterSave] make. *)
Definition isPositionCall (x : Call) : bool :=
  isMasterUpdate x || isMasterSave x || isSaveEffect x.

(** Canals that agree on everything but the position and the time of
    the last save. *)
Definition sameSetup (a b : Canal) : Prop :=
  dsn_DBName a = dsn_DBName b /\
  Log_IsInfo a = Log_IsInfo b /\
  Log_IsDebug a = Log_IsDebug b /\
  rsHandlers a = rsHandlers b /\
  hasCheckpointStore a = hasCheckpointStore b.

(** A reading of decimal numbers of one digit, enough for the samples. *)
Definition sampleToUint (v : string) : Z :=
  if String.eqb v "2" then 2 else if String.eqb v "4" then 4 else 0.

Definition sampleParams : Params :=
  setParam "BinlogStartPosition" "2" (setParam "BinlogStartFile" "mysql-bin.000002" noParams).

(** * Properties *)

(** ** Integer conversions *)

Module GoIntFacts.
Import GoInt.

Lemma to_uint_small z : is_uint64 z -> to_uint z = z.
Proof. unfold is_uint64, to_uint, to_uint64; intros H; apply Z.mod_small; exact H. Qed.

Lemma to_uint_of_uint32 z : is_uint32 z -> to_uint z = z.
Proof. unfold is_uint32; intros H; apply to_uint_small; unfold is_uint64; lia. Qed.

Lemma to_int64_small z : is_int64 z -> to_int64 z = z.
Proof.
  unfold is_int64, to_int64; intros H.
  rewrite Z.mod_small by lia. lia.
Qed.

Lemma to_int64_range z : is_int64 (to_int64 z).
Proof.
  unfold is_int64, to_int64.
  pose proof (Z.mod_pos_bound (z + 2 ^ 63) (2 ^ 64) ltac:(lia)). lia.
Qed.

End GoIntFacts.

(** ** Order lemmas on strings *)

Section StringOrder.

Lemma ascii_compare_refl a : Ascii.compare a a = Eq.
Proof. unfold Ascii.compare. apply N.compare_refl. Qed.

Lemma ascii_compare_lt_trans a b c :
  Ascii.compare a b = Lt -> Ascii.compare b c = Lt -> Ascii.compare a c = Lt.
Proof.
  unfold Ascii.compare. rewrite !N.compare_lt_iff. apply N.lt_trans.
Qed.

Lemma string_compare_refl s : String.compare s s = Eq.
Proof.
  induction s as [|a s IH]; simpl; [reflexivity|].
  rewrite ascii_compare_refl. exact IH.
Qed.

Lemma string_compare_eq s t : String.compare s t = Eq <-> s = t.
Proof.
  split; [apply String.compare_eq_iff|].
  intros ->. apply string_compare_refl.
Qed.

Lemma string_compare_lt_trans s : forall t u,
  String.compare s t = Lt -> String.compare t u = Lt -> String.compare s u = Lt.
Proof.
  induction s as [|a s IH]; intros [|b t] [|c u]; simpl; try congruence.
  destruct (Ascii.compare a b) eqn:Eab; try discriminate;
    destruct (Ascii.compare b c) eqn:Ebc; try discriminate; intros Hst Htu.
  - apply Ascii.compare_eq_iff in Eab, Ebc; subst.
    rewrite ascii_compare_refl. eapply IH; eassumption.
  - apply Ascii.compare_eq_iff in Eab; subst. rewrite Ebc. reflexivity.
  - apply Ascii.compare_eq_iff in Ebc; subst. rewrite Eab. reflexivity.
  - rewrite (ascii_compare_lt_trans _ _ _ Eab Ebc). reflexivity.
Qed.

End StringOrder.

(** ** Order lemmas on positions *)

Section CompareOrder.

Lemma Compare_values a b : Compare a b = -1 \/ Compare a b = 0 \/ Compare a b = 1.
Proof.
  unfold Compare.
  destruct (String.compare (File a) (File b)); auto.
  destruct (Z.compare (Position a) (Position b)); auto.
Qed.

Lemma Compare_lt_iff a b :
  Compare a b = -1 <->
  String.compare (File a) (File b) = Lt \/
  (File a = File b /\ Position a < Position b).
Proof.
  unfold Compare.
  destruct (String.compare (File a) (File b)) eqn:Ef.
  - apply string_compare_eq in Ef.
    destruct (Z.compare_spec (Position a) (Position b)) as [Ep|Ep|Ep].
    + split; [discriminate|].
      intros [H|[_ H]]; [discriminate|lia].
    + split; auto.
    + split; [discriminate|].
      intros [H|[_ H]]; [discriminate|lia].
  - split; auto.
  - split; [discriminate|].
    intros [H|[H _]]; [discriminate|].
    apply string_compare_eq in H. congruence.
Qed.

Lemma Compare_eq_iff a b :
  Compare a b = 0 <-> File a = File b /\ Position a = Position b.
Proof.
  unfold Compare.
  destruct (String.compare (File a) (File b)) eqn:Ef.
  - apply string_compare_eq in Ef.
    destruct (Z.compare_spec (Position a) (Position b)) as [Ep|Ep|Ep].
    + tauto.
    + split; [discriminate|]. intros [_ H]; lia.
    + split; [discriminate|]. intros [_ H]; lia.
  - split; [discriminate|]. intros [H _].
    apply string_compare_eq in H. congruence.
  - split; [discriminate|]. intros [H _].
    apply string_compare_eq in H. congruence.
Qed.

Lemma Compare_antisym a b : Compare b a = - Compare a b.
Proof.
  unfold Compare.
  rewrite (String.compare_antisym (File b) (File a)).
  rewrite (Z.compare_antisym (Position a) (Position b)).
  destruct (String.compare (File a) (File b)); simpl; try reflexivity.
  destruct (Z.compare (Position a) (Position b)); reflexivity.
Qed.

Lemma Compare_lt_trans a b c :
  Compare a b = -1 -> Compare b c = -1 -> Compare a c = -1.
Proof.
  rewrite !Compare_lt_iff.
  intros [Hab|[Fab Pab]] [Hbc|[Fbc Pbc]].
  - left. eapply string_compare_lt_trans; eassumption.
  - left. rewrite <- Fbc. exact Hab.
  - left. rewrite Fab. exact Hbc.
  - right. split; [congruence|lia].
Qed.

End CompareOrder.

(** ** Basic facts about the collaborators *)

Section Collaborators.

Lemma error_eqb_DeadlineExceeded err :
  error_eqb err DeadlineExceeded = true <-> err = DeadlineExceeded.
Proof. destruct err; simpl; split; congruence. Qed.

Lemma flushFrom_spec hs : forall i c,
  flushFrom i hs c =
    (firstError (map (fun h => OnFlush h (masterStatus c)) hs), c,
     map (fun j => CallOnFlush j (masterStatus c)) (seq i (List.length hs))).
Proof.
  induction hs as [|h hs IH]; intros i c; [reflexivity|].
  cbn [flushFrom]. unfold bind, get, call, ret. rewrite IH. cbn.
  rewrite app_nil_r.
  destruct (OnFlush h (masterStatus c)); reflexivity.
Qed.

Lemma flushEventHandlers_spec c :
  flushEventHandlers c =
    (firstError (map (fun h => OnFlush h (masterStatus c)) (rsHandlers c)), c,
     map (fun j => CallOnFlush j (masterStatus c)) (seq 0 (List.length (rsHandlers c)))).
Proof. unfold flushEventHandlers, bind, get. cbn. rewrite flushFrom_spec. reflexivity. Qed.

Lemma travelFrom_ok hs action t rows : forall i c,
  (forall h, In h hs -> OnRowChange h action t rows = None) ->
  travelFrom i hs action t rows c =
    (None, c, map (fun j => CallOnRowChange j action t rows) (seq i (List.length hs))).
Proof.
  induction hs as [|h hs IH]; intros i c Hok; [reflexivity|].
  cbn [travelFrom]. unfold bind, call.
  rewrite (Hok h (or_introl eq_refl)).
  rewrite IH by (intros h' Hin; apply Hok; right; exact Hin).
  reflexivity.
Qed.

Lemma travelFrom_fail hs1 h hs2 action t rows err : forall i c,
  (forall h', In h' hs1 -> OnRowChange h' action t rows = None) ->
  OnRowChange h action t rows = Some err ->
  travelFrom i (hs1 ++ h :: hs2) action t rows c =
    (Some err, c,
     map (fun j => CallOnRowChange j action t rows) (seq i (S (List.length hs1)))).
Proof.
  induction hs1 as [|h1 hs1 IH]; intros i c Hok Herr.
  - cbn. unfold bind, call, ret. rewrite Herr. reflexivity.
  - cbn [app travelFrom]. unfold bind, call.
    rewrite (Hok h1 (or_introl eq_refl)).
    rewrite IH by (auto; intros h' Hin; apply Hok; right; exact Hin).
    reflexivity.
Qed.

Lemma travelFrom_canal hs action t rows : forall i c,
  canal (travelFrom i hs action t rows c) = c.
Proof.
  induction hs as [|h hs IH]; intros i c; [reflexivity|].
  cbn [travelFrom]. unfold bind, call, ret.
  destruct (OnRowChange h action t rows).
  - reflexivity.
  - specialize (IH (S i) c).
    destruct (travelFrom (S i) hs action t rows c) as [[r c1] t1]. exact IH.
Qed.

Lemma travelFrom_trace hs action t rows : forall i c,
  forallb isOnRowChange (trace (travelFrom i hs action t rows c)) = true.
Proof.
  induction hs as [|h hs IH]; intros i c; [reflexivity|].
  cbn [travelFrom]. unfold bind, call, ret.
  destruct (OnRowChange h action t rows).
  - reflexivity.
  - specialize (IH (S i) c).
    destruct (travelFrom (S i) hs action t rows c) as [[r c1] t1]. exact IH.
Qed.

(** [masterSave], case by case. *)
Lemma masterSave_cases w c :
  masterSave w c =
    if negb (hasCheckpointStore c) then
      (None, c,
       [CallMasterSave;
        LogDebug "[binlogsync] Master Status cannot be saved: no checkpoint store"])
    else if Now w - masterLastSaveTime c <? Second then
      (None, c, [CallMasterSave])
    else
      match Write w (masterStatus c) with
      | Some err =>
          (Some err, c, [CallMasterSave; CallWrite (masterStatus c) (Some err)])
      | None =>
          (None, set_masterLastSaveTime (Now w) c,
           [CallMasterSave; CallWrite (masterStatus c) None])
      end.
Proof.
  unfold masterSave, bind, call, get, modify, ret. cbn.
  destruct (hasCheckpointStore c); cbn; [|reflexivity].
  destruct (Now w - masterLastSaveTime c <? Second); [reflexivity|].
  destruct (Write w (masterStatus c)); reflexivity.
Qed.

Lemma masterSave_trace w c :
  exists post, trace (masterSave w c) = CallMasterSave :: post /\
               forallb isSaveEffect post = true.
Proof.
  rewrite masterSave_cases.
  destruct (negb (hasCheckpointStore c)); [eexists; split; reflexivity|].
  destruct (Now w - masterLastSaveTime c <? Second); [eexists; split; reflexivity|].
  destruct (Write w (masterStatus c)); eexists; split; reflexivity.
Qed.

Lemma masterSave_masterStatus w c :
  masterStatus (canal (masterSave w c)) = masterStatus c.
Proof.
  rewrite masterSave_cases.
  destruct (negb (hasCheckpointStore c)); [reflexivity|].
  destruct (Now w - masterLastSaveTime c <? Second); [reflexivity|].
  destruct (Write w (masterStatus c)); reflexivity.
Qed.

Lemma masterUpdate_spec f p c :
  masterUpdate f p c =
    (tt, set_masterStatus (set_Position p (set_File f (masterStatus c))) c,
     [CallMasterUpdate f p]).
Proof. reflexivity. Qed.

End Collaborators.

(** ** One pass through the loop, case by case *)

Arguments masterSave : simpl never.
Arguments masterUpdate : simpl never.
Arguments savePosition : simpl never.
Arguments handleRowsEvent : simpl never.
Arguments flushEventHandlers : simpl never.
Arguments travelRowsEventHandler : simpl never.

Lemma bind_run {A B} (m : M A) (k : A -> M B) c :
  bind m k c =
    (result (k (result (m c)) (canal (m c))),
     canal (k (result (m c)) (canal (m c))),
     trace (m c) ++ trace (k (result (m c)) (canal (m c)))).
Proof.
  unfold bind, result, canal, trace.
  destruct (m c) as [[a c1] t1]. cbn [fst snd].
  destruct (k a c1) as [[b c2] t2]. reflexivity.
Qed.


Lemma savePosition_result w p d c : result (savePosition w p d c) = Continue p d.
Proof.
  unfold savePosition. rewrite !bind_run. reflexivity.
Qed.

Section Iteration.

Variable w : World.
Variables (pos : MasterStatus) (timeout : Duration) (c : Canal).

Lemma savePosition_spec p d :
  savePosition w p d c =
    (Continue p d,
     canal (masterSave w (canal (masterUpdate (File p) (Position p) c))),
     CallMasterUpdate (File p) (Position p)
       :: trace (masterSave w (canal (masterUpdate (File p) (Position p) c)))
       ++ match result (masterSave w (canal (masterUpdate (File p) (Position p) c))) with
          | Some _ =>
              [LogInfo "[binlogsync] startSyncBinlog: Failed to save master position"]
          | None => []
          end).
Proof.
  unfold savePosition. rewrite !bind_run. rewrite masterUpdate_spec.
  cbn [result canal trace fst snd app].
  match goal with
  | |- context [masterSave w ?x] => destruct (masterSave w x) as [[[err|] c2] t2]
  end; cbn [ret call fst snd app]; rewrite ?app_nil_r; reflexivity.
Qed.


Lemma iteration_timeout :
  GetEvent w = inr DeadlineExceeded ->
  iteration w pos timeout c =
    (Continue pos (GoInt.to_int64 (2 * timeout)), c, [CallGetEvent (2 * Second)]).
Proof. intros E. unfold iteration. rewrite E. reflexivity. Qed.

Lemma iteration_error err :
  GetEvent w = inr err -> err <> DeadlineExceeded ->
  iteration w pos timeout c =
    (Return (Wrap err "[binlogsync] startSyncBinlog.GetEvent"), c,
     [CallGetEvent (2 * Second)]).
Proof.
  intros E Hne. unfold iteration. rewrite E.
  destruct (error_eqb err DeadlineExceeded) eqn:Eq; [|reflexivity].
  apply error_eqb_DeadlineExceeded in Eq. contradiction.
Qed.

Lemma iteration_tablemap ev id schema table :
  GetEvent w = inl ev -> Event_ ev = EvTableMap id schema table ->
  iteration w pos timeout c =
    (Continue (atLogPos pos ev) Second, c, [CallGetEvent (2 * Second)]).
Proof. intros E Ev. unfold iteration. rewrite E, Ev. reflexivity. Qed.

Lemma iteration_other ev :
  GetEvent w = inl ev -> Event_ ev = EvOther ->
  iteration w pos timeout c =
    (Continue (atLogPos pos ev) Second,
     canal (savePosition w (atLogPos pos ev) Second c),
     CallGetEvent (2 * Second) :: trace (savePosition w (atLogPos pos ev) Second c)).
Proof.
  intros E Ev. unfold iteration. rewrite E, Ev.
  unfold bind at 1. unfold call at 1. fold (atLogPos pos ev).
  rewrite savePosition_spec. reflexivity.
Qed.

Lemma iteration_rotate ev e :
  GetEvent w = inl ev -> Event_ ev = EvRotate e ->
  iteration w pos timeout c =
    match firstError (map (fun h => OnFlush h (masterStatus c)) (rsHandlers c)) with
    | Some err =>
        (Return (Wrap err "[binlogsync] startSyncBinlog.flushEventHandlers"), c,
         CallGetEvent (2 * Second)
           :: map (fun j => CallOnFlush j (masterStatus c))
                  (seq 0 (List.length (rsHandlers c))))
    | None =>
        (Continue (positionAfter ev pos) Second,
         canal (savePosition w (positionAfter ev pos) Second c),
         CallGetEvent (2 * Second)
           :: map (fun j => CallOnFlush j (masterStatus c))
                  (seq 0 (List.length (rsHandlers c)))
           ++ (if Log_IsInfo c
               then [LogInfo "[binlogsync] Rotate binlog to a new position"]
               else [])
           ++ trace (savePosition w (positionAfter ev pos) Second c))
    end.
Proof.
  intros E Ev. unfold iteration. rewrite E, Ev.
  rewrite !bind_run. rewrite flushEventHandlers_spec.
  cbn [result canal trace fst snd call].
  destruct (firstError _) as [err|].
  - cbn [ret fst snd app]. rewrite app_nil_r. reflexivity.
  - rewrite !bind_run. cbn [get result canal trace fst snd app].
    replace (set_Position (GoInt.to_uint (Rotate_Position e))
               (set_File (NextLogName e)
                  (set_Position (GoInt.to_uint (LogPos (Header ev))) pos)))
      with (positionAfter ev pos) by (unfold positionAfter; rewrite Ev; reflexivity).
    destruct (Log_IsInfo c); cbn [when ret call canal result trace fst snd app];
      rewrite savePosition_result; reflexivity.
Qed.

Lemma iteration_rows ev e :
  GetEvent w = inl ev -> Event_ ev = EvRows e ->
  iteration w pos timeout c =
    match result (handleRowsEvent w ev c) with
    | Some err =>
        (Return (Wrap err "[binlogsync] handleRowsEvent"),
         canal (handleRowsEvent w ev c),
         CallGetEvent (2 * Second) :: trace (handleRowsEvent w ev c)
           ++ (if Log_IsInfo (canal (handleRowsEvent w ev c))
               then [LogInfo "[binlogsync] Rotate binlog to a new position"]
               else []))
    | None =>
        (Continue (atLogPos pos ev) Second,
         canal (savePosition w (atLogPos pos ev) Second (canal (handleRowsEvent w ev c))),
         CallGetEvent (2 * Second) :: trace (handleRowsEvent w ev c)
           ++ trace (savePosition w (atLogPos pos ev) Second
                                  (canal (handleRowsEvent w ev c))))
    end.
Proof.
  intros E Ev. unfold iteration. rewrite E, Ev. fold (atLogPos pos ev).
  rewrite !bind_run. cbn [call result canal trace fst snd app].
  destruct (result (handleRowsEvent w ev c)) as [err|].
  - rewrite !bind_run. cbn [get ret result canal trace fst snd app].
    destruct (Log_IsInfo _); cbn [when ret call fst snd app];
      rewrite ?app_nil_r; reflexivity.
  - rewrite savePosition_result. reflexivity.
Qed.

End Iteration.

(** ** What each part of the loop leaves in the trace *)

Section TraceKinds.

Lemma forallb_weaken {A} (P Q : A -> bool) (l : list A) :
  (forall x, P x = true -> Q x = true) ->
  forallb P l = true -> forallb Q l = true.
Proof.
  intros HPQ. induction l as [|x l IH]; cbn; [reflexivity|].
  intros H. apply andb_true_iff in H as [Hx Hl].
  rewrite (HPQ x Hx), (IH Hl). reflexivity.
Qed.

Lemma forallb_map_seq {A} (P : A -> bool) (f : nat -> A) n : forall i,
  (forall j, P (f j) = true) -> forallb P (map f (seq i n)) = true.
Proof.
  induction n as [|n IH]; intros i H; cbn; [reflexivity|].
  rewrite H, IH by exact H. reflexivity.
Qed.

Lemma waits_app t1 t2 : waits (t1 ++ t2) = waits t1 ++ waits t2.
Proof.
  induction t1 as [|x t1 IH]; [reflexivity|].
  destruct x; cbn; rewrite IH; reflexivity.
Qed.

Lemma waits_none t :
  forallb (fun x => negb (isGetEvent x)) t = true -> waits t = [].
Proof.
  induction t as [|x t IH]; [reflexivity|].
  cbn. intros H. apply andb_true_iff in H as [Hx Ht].
  destruct x; cbn in *; try discriminate; apply IH; exact Ht.
Qed.

Lemma writes_app t1 t2 : writes (t1 ++ t2) = (writes t1 + writes t2)%nat.
Proof. unfold writes. rewrite filter_app, length_app. reflexivity. Qed.

Lemma handleRowsEvent_canal w e c : canal (handleRowsEvent w e c) = c.
Proof.
  unfold handleRowsEvent.
  destruct (Event_ e) as [r|r|id s t|]; try reflexivity.
  rewrite bind_run. cbn [get result canal trace fst snd].
  destruct (negb (dsn_DBName c =? Table_Schema r)%string).
  - rewrite bind_run. destruct (Log_IsDebug c); reflexivity.
  - rewrite bind_run. cbn [call result canal trace fst snd].
    destruct (FindTable w _ _) as [t|err]; [|reflexivity].
    destruct (switch_EventType _) as [action|]; [|reflexivity].
    unfold travelRowsEventHandler. rewrite bind_run.
    cbn [get result canal trace fst snd]. apply travelFrom_canal.
Qed.

Lemma handleRowsEvent_trace w e c :
  forallb (fun x => isLog x || isFindTable x || isOnRowChange x)
          (trace (handleRowsEvent w e c)) = true.
Proof.
  unfold handleRowsEvent.
  destruct (Event_ e) as [r|r|id s t|]; try reflexivity.
  rewrite bind_run. cbn [get result canal trace fst snd app].
  destruct (negb (dsn_DBName c =? Table_Schema r)%string).
  - rewrite bind_run. destruct (Log_IsDebug c); reflexivity.
  - rewrite bind_run. cbn [call result canal trace fst snd app forallb].
    cbn [isLog isFindTable isOnRowChange orb andb].
    destruct (FindTable w _ _) as [t|err]; [|reflexivity].
    destruct (switch_EventType _) as [action|]; [|reflexivity].
    unfold travelRowsEventHandler. rewrite bind_run.
    cbn [get result canal trace fst snd app].
    eapply forallb_weaken; [|apply travelFrom_trace].
    intros x Hx. rewrite Hx. apply orb_true_r.
Qed.

Lemma savePosition_trace w p d c :
  exists post,
    trace (savePosition w p d c) =
      CallMasterUpdate (File p) (Position p) :: CallMasterSave :: post /\
    forallb isSaveEffect post = true.
Proof.
  rewrite savePosition_spec. cbn [trace snd].
  destruct (masterSave_trace w (canal (masterUpdate (File p) (Position p) c)))
    as [post [Ht Hpost]].
  rewrite Ht.
  eexists. split; [cbn [app]; reflexivity|].
  rewrite forallb_app, Hpost.
  destruct (result _); reflexivity.
Qed.

Lemma savePosition_masterStatus w p d c :
  masterStatus (canal (savePosition w p d c)) =
    set_Position (Position p) (set_File (File p) (masterStatus c)).
Proof.
  rewrite savePosition_spec. cbn [canal fst snd].
  rewrite masterSave_masterStatus. reflexivity.
Qed.

Lemma savePosition_no_wait w p d c :
  forallb (fun x => negb (isGetEvent x)) (trace (savePosition w p d c)) = true.
Proof.
  destruct (savePosition_trace w p d c) as [post [Ht Hpost]]. rewrite Ht.
  cbn. eapply forallb_weaken; [|exact Hpost].
  intros x; destruct x; cbn; congruence.
Qed.

End TraceKinds.

(** ** Runs of the loop *)

Section Runs.

Lemma forLoop_cons w ws pos timeout c :
  forLoop (w :: ws) pos timeout c =
    match result (iteration w pos timeout c) with
    | Continue pos' timeout' =>
        (result (forLoop ws pos' timeout' (canal (iteration w pos timeout c))),
         canal (forLoop ws pos' timeout' (canal (iteration w pos timeout c))),
         trace (iteration w pos timeout c)
           ++ trace (forLoop ws pos' timeout' (canal (iteration w pos timeout c))))
    | Return err =>
        (Returned err, canal (iteration w pos timeout c),
         trace (iteration w pos timeout c))
    end.
Proof.
  cbn [forLoop]. rewrite bind_run.
  destruct (result (iteration w pos timeout c)); [reflexivity|].
  cbn [ret result canal trace fst snd]. rewrite app_nil_r. reflexivity.
Qed.

(** Every pass waits once, for two seconds. *)
Lemma iteration_waits w pos timeout c :
  waits (trace (iteration w pos timeout c)) = [2 * Second].
Proof.
  destruct (GetEvent w) as [ev|err] eqn:E.
  - destruct (Event_ ev) as [e|e|id s t|] eqn:Ev.
    + rewrite (iteration_rotate _ _ _ _ _ _ E Ev).
      assert (Hf : waits (map (fun j => CallOnFlush j (masterStatus c))
                              (seq 0 (List.length (rsHandlers c)))) = []).
      { apply waits_none. apply forallb_map_seq. reflexivity. }
      destruct (firstError _); cbn [trace snd waits]; rewrite ?waits_app, Hf.
      * reflexivity.
      * rewrite (waits_none _ (savePosition_no_wait _ _ _ _)).
        destruct (Log_IsInfo c); reflexivity.
    + rewrite (iteration_rows _ _ _ _ _ _ E Ev).
      assert (Hh : waits (trace (handleRowsEvent w ev c)) = []).
      { apply waits_none. eapply forallb_weaken; [|apply handleRowsEvent_trace].
        intros x; destruct x; cbn; congruence. }
      destruct (result (handleRowsEvent w ev c)); cbn [trace snd waits];
        rewrite ?waits_app, Hh.
      * destruct (Log_IsInfo _); reflexivity.
      * rewrite (waits_none _ (savePosition_no_wait _ _ _ _)). reflexivity.
    + rewrite (iteration_tablemap _ _ _ _ _ _ _ _ E Ev). reflexivity.
    + rewrite (iteration_other _ _ _ _ _ E Ev). cbn [trace snd waits].
      rewrite (waits_none _ (savePosition_no_wait _ _ _ _)). reflexivity.
  - unfold iteration. rewrite E.
    destruct (error_eqb err DeadlineExceeded); reflexivity.
Qed.

(** The value of [timeout] at the start of a pass shows nowhere but in
    the value of [timeout] at its end. *)
Lemma iteration_timeout_unused w pos t1 t2 c :
  sameFlow (result (iteration w pos t1 c)) (result (iteration w pos t2 c)) /\
  canal (iteration w pos t1 c) = canal (iteration w pos t2 c) /\
  trace (iteration w pos t1 c) = trace (iteration w pos t2 c).
Proof.
  unfold iteration. destruct (GetEvent w) as [ev|err].
  - rewrite !bind_run. cbn [call result canal trace fst snd].
    repeat split.
    destruct (result _); reflexivity.
  - destruct (error_eqb err DeadlineExceeded); repeat split.
Qed.

Lemma forLoop_timeout_unused ws : forall pos t1 t2 c,
  sameOutcome (result (forLoop ws pos t1 c)) (result (forLoop ws pos t2 c)) /\
  canal (forLoop ws pos t1 c) = canal (forLoop ws pos t2 c) /\
  trace (forLoop ws pos t1 c) = trace (forLoop ws pos t2 c).
Proof.
  induction ws as [|w ws IH]; intros pos t1 t2 c.
  - repeat split.
  - rewrite !forLoop_cons.
    destruct (iteration_timeout_unused w pos t1 t2 c) as [Hf [Hc Ht]].
    rewrite <- Hc, <- Ht.
    destruct (result (iteration w pos t1 c)) as [p1 d1|e1];
      destruct (result (iteration w pos t2 c)) as [p2 d2|e2];
      cbn in Hf; try contradiction; subst.
    + destruct (IH p2 d1 d2 (canal (iteration w pos t1 c))) as [Ho [Hc' Ht']].
      cbn [result canal trace fst snd]. rewrite Ht'. auto.
    + repeat split.
Qed.

Lemma to_int64_double z : GoInt.to_int64 (2 * GoInt.to_int64 z) = GoInt.to_int64 (2 * z).
Proof.
  unfold GoInt.to_int64. f_equal.
  pose proof (Z.div_mod (z + 2 ^ 63) (2 ^ 64) ltac:(lia)) as D.
  replace (2 * ((z + 2 ^ 63) mod 2 ^ 64 - 2 ^ 63) + 2 ^ 63)
    with (2 * z + 2 ^ 63 + (- 2 * ((z + 2 ^ 63) / 2 ^ 64)) * 2 ^ 64) by lia.
  apply Z.mod_add. lia.
Qed.

Lemma doubled_closed n timeout :
  GoInt.is_int64 timeout ->
  doubled n timeout = GoInt.to_int64 (2 ^ Z.of_nat n * timeout).
Proof.
  intros Ht. induction n as [|n IH].
  - unfold doubled. cbn [Nat.iter Z.of_nat].
    rewrite Z.pow_0_r, Z.mul_1_l. symmetry.
    apply GoIntFacts.to_int64_small. exact Ht.
  - change (doubled (S n) timeout) with (GoInt.to_int64 (2 * doubled n timeout)).
    rewrite IH, to_int64_double. f_equal.
    rewrite Nat2Z.inj_succ, Z.pow_succ_r by lia. lia.
Qed.

Lemma forLoop_waitTimeouts ws : forall pos timeout c,
  forLoop (map waitTimeout ws) pos timeout c =
    (Waiting pos (doubled (List.length ws) timeout), c,
     repeat (CallGetEvent (2 * Second)) (List.length ws)).
Proof.
  induction ws as [|w ws IH]; intros pos timeout c; [reflexivity|].
  cbn [map]. rewrite forLoop_cons.
  rewrite (iteration_timeout (waitTimeout w) pos timeout c eq_refl).
  cbn [result canal trace fst snd]. rewrite IH.
  cbn [result canal trace fst snd List.length repeat app].
  unfold doubled. rewrite Nat.iter_succ_r. reflexivity.
Qed.

End Runs.

(** * The loop advances and persists the position *)

Section Advance.

Lemma not_advance_flush ms n : forall i,
  forallb (fun x => negb (isMasterUpdate x || isMasterSave x))
          (map (fun j => CallOnFlush j ms) (seq i n)) = true.
Proof. intros i. apply forallb_map_seq. reflexivity. Qed.

Lemma not_advance_handleRowsEvent w e c :
  forallb (fun x => negb (isMasterUpdate x || isMasterSave x))
          (trace (handleRowsEvent w e c)) = true.
Proof.
  eapply forallb_weaken; [|apply handleRowsEvent_trace].
  intros x; destruct x; cbn; congruence.
Qed.

Lemma advanceThenPersist_intro pre w p d c :
  forallb (fun x => negb (isMasterUpdate x || isMasterSave x)) pre = true ->
  advanceThenPersist (File p) (Position p) (pre ++ trace (savePosition w p d c)).
Proof.
  intros Hpre. destruct (savePosition_trace w p d c) as [post [Ht Hpost]].
  exists pre, post. rewrite Ht. auto.
Qed.

Lemma set_masterStatus_at p ms :
  File (set_Position (Position p) (set_File (File p) ms)) = File p /\
  Position (set_Position (Position p) (set_File (File p) ms)) = Position p.
Proof. split; reflexivity. Qed.

End Advance.

(** C1, as amended.  A pass of the loop that consumes an event other
    than a TableMapEvent and runs to its end calls [masterUpdate] with
    the position the loop holds -- the current segment and the event's
    trailing offset, or for a Rotate event the segment and offset the
    event names -- and then [masterSave], and the canal's position is
    that one afterwards.  A pass that consumes a TableMapEvent takes the
    [continue] of line 78: it calls neither and leaves the canal as it
    was. *)
Theorem iteration_advances_unless_TableMapEvent :
  forall w pos timeout c ev,
    GetEvent w = inl ev ->
    (isTableMap ev = true ->
       iteration w pos timeout c =
         (Continue (atLogPos pos ev) Second, c, [CallGetEvent (2 * Second)])) /\
    (isTableMap ev = false ->
       forall pos' timeout',
         result (iteration w pos timeout c) = Continue pos' timeout' ->
         pos' = positionAfter ev pos /\
         advanceThenPersist (File pos') (Position pos')
                            (trace (iteration w pos timeout c)) /\
         File (masterStatus (canal (iteration w pos timeout c))) = File pos' /\
         Position (masterStatus (canal (iteration w pos timeout c))) = Position pos').
Proof.
  intros w pos timeout c ev E. unfold isTableMap. split.
  - destruct (Event_ ev) as [e|e|id s t|] eqn:Ev; try discriminate.
    intros _. apply (iteration_tablemap _ _ _ _ _ _ _ _ E Ev).
  - destruct (Event_ ev) as [e|e|id s t|] eqn:Ev; try discriminate;
      intros _ pos' timeout'.
    + rewrite (iteration_rotate _ _ _ _ _ _ E Ev).
      destruct (firstError _); cbn [result canal trace fst snd]; [discriminate|].
      intros H; injection H as <- <-.
      split; [reflexivity|]. split.
      * change (CallGetEvent (2 * Second) :: ?a ++ ?b ++ ?t)
          with ((CallGetEvent (2 * Second) :: a) ++ b ++ t).
        rewrite app_assoc. apply advanceThenPersist_intro.
        rewrite forallb_app. cbn [forallb]. rewrite not_advance_flush.
        destruct (Log_IsInfo c); reflexivity.
      * rewrite savePosition_masterStatus. apply set_masterStatus_at.
    + rewrite (iteration_rows _ _ _ _ _ _ E Ev).
      destruct (result (handleRowsEvent w ev c)); cbn [result canal trace fst snd];
        [discriminate|].
      intros H; injection H as <- <-.
      split; [unfold positionAfter; rewrite Ev; reflexivity|]. split.
      * change (CallGetEvent (2 * Second) :: ?a ++ ?t)
          with ((CallGetEvent (2 * Second) :: a) ++ t).
        apply advanceThenPersist_intro.
        cbn [forallb]. rewrite not_advance_handleRowsEvent. reflexivity.
      * rewrite savePosition_masterStatus. apply set_masterStatus_at.
    + rewrite (iteration_other _ _ _ _ _ E Ev). cbn [result canal trace fst snd].
      intros H; injection H as <- <-.
      split; [unfold positionAfter; rewrite Ev; reflexivity|]. split.
      * change (CallGetEvent (2 * Second) :: ?t)
          with ([CallGetEvent (2 * Second)] ++ t).
        apply advanceThenPersist_intro. reflexivity.
      * rewrite savePosition_masterStatus. apply set_masterStatus_at.
Qed.

Lemma iteration_advances_unless_TableMapEvent_witness :
  advanceThenPersist "log.1" 231
    (trace (iteration (Sample.deliver Sample.xid) (masterStatus Sample.shop)
                      Second Sample.shop)) /\
  Position (masterStatus (canal (iteration (Sample.deliver Sample.xid)
                                           (masterStatus Sample.shop)
                                           Second Sample.shop))) = 231.
Proof.
  destruct (iteration_advances_unless_TableMapEvent
              (Sample.deliver Sample.xid) (masterStatus Sample.shop) Second
              Sample.shop Sample.xid eq_refl) as [_ H].
  destruct (H eq_refl (positionAfter Sample.xid (masterStatus Sample.shop)) Second
              eq_refl) as [_ [Ha [_ Hp]]].
  split; [exact Ha | exact Hp].
Defined.

(** C1, as stated, fails on a TableMapEvent: the pass consumes the
    event and runs to its end, yet the trace holds the wait alone -- no
    [masterUpdate] with the event's trailing position 150, no
    [masterSave] -- and the canal still stands at log.1:100. *)
Lemma TableMapEvent_is_not_advanced :
  GetEvent (Sample.deliver Sample.tableMap) = inl Sample.tableMap /\
  result (iteration (Sample.deliver Sample.tableMap) (masterStatus Sample.shop)
                    Second Sample.shop)
    = Continue (MasterStatusAt "log.1" 150) Second /\
  ~ advanceThenPersist "log.1" 150
      (trace (iteration (Sample.deliver Sample.tableMap) (masterStatus Sample.shop)
                        Second Sample.shop)) /\
  existsb (fun x => isMasterUpdate x || isMasterSave x)
      (trace (iteration (Sample.deliver Sample.tableMap) (masterStatus Sample.shop)
                        Second Sample.shop)) = false /\
  masterStatus (canal (iteration (Sample.deliver Sample.tableMap)
                                 (masterStatus Sample.shop) Second Sample.shop))
    = MasterStatusAt "log.1" 100.
Proof.
  split; [reflexivity|]. split; [reflexivity|]. split; [|split; reflexivity].
  intros [pre [post [H _]]].
  change (trace (iteration (Sample.deliver Sample.tableMap) (masterStatus Sample.shop)
                           Second Sample.shop))
    with [CallGetEvent (2 * Second)] in H.
  destruct pre as [|x [|y pre]]; discriminate H.
Qed.

(** * Rotation *)

(** C2.  On a Rotate event the pass first notifies every registered
    handler of the flush, in registration order, each being shown the
    position the canal had when the pass began; only after that, and
    only if no handler reported an error, does it log and call
    [masterUpdate] with the event's NextLogName and Position (then
    [masterSave]), which is the canal's position afterwards.  If the
    flush reports an error the pass returns it, wrapped, and the
    position is left as it was. *)
Theorem rotate_flushes_before_position_changes :
  forall w pos timeout c ev e,
    GetEvent w = inl ev -> Event_ ev = EvRotate e -> wf_event ev ->
    result (flushEventHandlers c)
      = firstError (map (fun h => OnFlush h (masterStatus c)) (rsHandlers c)) /\
    exists rest,
      trace (iteration w pos timeout c)
        = CallGetEvent (2 * Second)
            :: map (fun j => CallOnFlush j (masterStatus c))
                   (seq 0 (List.length (rsHandlers c)))
            ++ rest /\
      forallb (fun x => negb (isOnFlush x)) rest = true /\
      match result (flushEventHandlers c) with
      | Some err =>
          rest = [] /\
          result (iteration w pos timeout c)
            = Return (Wrap err "[binlogsync] startSyncBinlog.flushEventHandlers") /\
          canal (iteration w pos timeout c) = c
      | None =>
          advanceThenPersist (NextLogName e) (Rotate_Position e) rest /\
          result (iteration w pos timeout c)
            = Continue (set_Position (Rotate_Position e) (set_File (NextLogName e) pos))
                       Second /\
          File (masterStatus (canal (iteration w pos timeout c))) = NextLogName e /\
          Position (masterStatus (canal (iteration w pos timeout c)))
            = Rotate_Position e
      end.
Proof.
  intros w pos timeout c ev e E Ev [_ [_ Hwf]]. rewrite Ev in Hwf.
  assert (Hp : positionAfter ev pos
               = set_Position (Rotate_Position e) (set_File (NextLogName e) pos)).
  { unfold positionAfter. rewrite Ev, (GoIntFacts.to_uint_small _ Hwf). reflexivity. }
  rewrite (iteration_rotate _ _ _ _ _ _ E Ev), flushEventHandlers_spec.
  cbn [result fst]. split; [reflexivity|].
  destruct (firstError _) as [err|]; cbn [result canal trace fst snd].
  - exists []. rewrite app_nil_r. repeat split.
  - eexists. split; [reflexivity|]. rewrite Hp.
    destruct (savePosition_trace w
                (set_Position (Rotate_Position e) (set_File (NextLogName e) pos))
                Second c) as [post [Ht Hpost]].
    split; [|split; [|split]].
    + rewrite forallb_app, Ht. cbn [forallb isOnFlush negb andb].
      replace (forallb (fun x => negb (isOnFlush x)) post) with true.
      * destruct (Log_IsInfo c); reflexivity.
      * symmetry. eapply forallb_weaken; [|exact Hpost].
        intros x; destruct x; cbn; congruence.
    + apply (advanceThenPersist_intro _ w
               (set_Position (Rotate_Position e) (set_File (NextLogName e) pos))).
      destruct (Log_IsInfo c); reflexivity.
    + reflexivity.
    + rewrite savePosition_masterStatus. split; reflexivity.
Qed.

Lemma rotate_flushes_before_position_changes_witness :
  exists rest,
    trace (iteration (Sample.deliver Sample.rotate) (masterStatus Sample.shop)
                     Second Sample.shop)
      = CallGetEvent (2 * Second)
          :: [CallOnFlush 0 (MasterStatusAt "log.1" 100);
              CallOnFlush 1 (MasterStatusAt "log.1" 100);
              CallOnFlush 2 (MasterStatusAt "log.1" 100)]
          ++ rest /\
    advanceThenPersist "log.2" 4 rest /\
    masterStatus (canal (iteration (Sample.deliver Sample.rotate)
                                   (masterStatus Sample.shop) Second Sample.shop))
      = MasterStatusAt "log.2" 4.
Proof.
  assert (Hwf : wf_event Sample.rotate).
  { vm_compute. repeat split; (reflexivity || (intros H; discriminate H)). }
  destruct (rotate_flushes_before_position_changes
              (Sample.deliver Sample.rotate) (masterStatus Sample.shop) Second
              Sample.shop Sample.rotate
              {| Rotate_Position := 4; NextLogName := "log.2" |}
              eq_refl eq_refl Hwf) as [_ [rest [Ht [_ Hm]]]].
  rewrite flushEventHandlers_spec in Hm. cbn in Hm.
  destruct Hm as [Ha _].
  exists rest. split; [exact Ht|]. split; [exact Ha|reflexivity].
Defined.

(** * Rows events *)

Section RowsEvents.

Lemma existsb_none {A} (P Q : A -> bool) (l : list A) :
  (forall x, P x = true -> Q x = false) ->
  forallb P l = true -> existsb Q l = false.
Proof.
  intros HPQ. induction l as [|x l IH]; cbn; [reflexivity|].
  intros H. apply andb_true_iff in H as [Hx Hl].
  rewrite (HPQ x Hx), (IH Hl). reflexivity.
Qed.

Lemma handleRowsEvent_target w e ev c :
  Event_ e = EvRows ev -> dsn_DBName c = Table_Schema ev ->
  handleRowsEvent w e c =
    match FindTable w (GoInt.to_int (TableID ev)) (Table_Table ev) with
    | inr err =>
        (Some (Wrap err "[binlogsync] GetTable %q.%q"), c,
         [CallFindTable (GoInt.to_int (TableID ev)) (Table_Table ev)])
    | inl t =>
        match switch_EventType (EventType_ (Header e)) with
        | Some action =>
            (result (travelRowsEventHandler action t (Rows_ ev) c), c,
             CallFindTable (GoInt.to_int (TableID ev)) (Table_Table ev)
               :: trace (travelRowsEventHandler action t (Rows_ ev) c))
        | None =>
            (Some (NotSupported "[binlogsync] EventType %v not yet supported"), c,
             [CallFindTable (GoInt.to_int (TableID ev)) (Table_Table ev)])
        end
    end.
Proof.
  intros Ev Hdb. unfold handleRowsEvent. rewrite Ev.
  rewrite bind_run. cbn [get result canal trace fst snd app].
  rewrite Hdb, String.eqb_refl. cbn [negb].
  rewrite bind_run. cbn [call result canal trace fst snd app].
  destruct (FindTable w _ _) as [t|err]; [|reflexivity].
  destruct (switch_EventType _) as [action|]; [|reflexivity].
  f_equal. f_equal.
  unfold travelRowsEventHandler. rewrite bind_run.
  cbn [get result canal trace fst snd]. apply travelFrom_canal.
Qed.

Lemma handleRowsEvent_skip w e ev c :
  Event_ e = EvRows ev -> dsn_DBName c <> Table_Schema ev ->
  handleRowsEvent w e c =
    (None, c,
     if Log_IsDebug c then [LogDebug "[binlogsync] Skipping database"] else []).
Proof.
  intros Ev Hdb. unfold handleRowsEvent. rewrite Ev.
  rewrite bind_run. cbn [get result canal trace fst snd app].
  apply String.eqb_neq in Hdb. rewrite Hdb. cbn [negb].
  rewrite bind_run. destruct (Log_IsDebug c); reflexivity.
Qed.

End RowsEvents.

(** C3.  For a RowsEvent of the target database whose table resolves,
    [handleRowsEvent] hands the rows to the handlers with the insert
    action for WRITE_ROWS v1 and v2, the update action for UPDATE_ROWS
    v1 and v2 and the delete action for DELETE_ROWS v1 and v2.  For
    every other subtype it dispatches nothing and returns a
    not-supported error, on which the loop returns that error, wrapped,
    whatever the event source would deliver next, without advancing the
    position. *)
Theorem handleRowsEvent_classifies :
  forall w e ev c t,
    Event_ e = EvRows ev ->
    dsn_DBName c = Table_Schema ev ->
    FindTable w (GoInt.to_int (TableID ev)) (Table_Table ev) = inl t ->
    (forall action,
       (EventType_ (Header e) = replication.WRITE_ROWS_EVENTv1 \/
        EventType_ (Header e) = replication.WRITE_ROWS_EVENTv2) /\ action = InsertAction \/
       (EventType_ (Header e) = replication.UPDATE_ROWS_EVENTv1 \/
        EventType_ (Header e) = replication.UPDATE_ROWS_EVENTv2) /\ action = UpdateAction \/
       (EventType_ (Header e) = replication.DELETE_ROWS_EVENTv1 \/
        EventType_ (Header e) = replication.DELETE_ROWS_EVENTv2) /\ action = DeleteAction ->
       handleRowsEvent w e c =
         (result (travelRowsEventHandler action t (Rows_ ev) c), c,
          CallFindTable (GoInt.to_int (TableID ev)) (Table_Table ev)
            :: trace (travelRowsEventHandler action t (Rows_ ev) c))) /\
    (~ In (EventType_ (Header e))
          [replication.WRITE_ROWS_EVENTv1; replication.WRITE_ROWS_EVENTv2;
           replication.UPDATE_ROWS_EVENTv1; replication.UPDATE_ROWS_EVENTv2;
           replication.DELETE_ROWS_EVENTv1; replication.DELETE_ROWS_EVENTv2] ->
     handleRowsEvent w e c =
       (Some (NotSupported "[binlogsync] EventType %v not yet supported"), c,
        [CallFindTable (GoInt.to_int (TableID ev)) (Table_Table ev)]) /\
     forall pos timeout ws,
       GetEvent w = inl e ->
       result (forLoop (w :: ws) pos timeout c) =
         Returned (Wrap (NotSupported "[binlogsync] EventType %v not yet supported")
                        "[binlogsync] handleRowsEvent") /\
       canal (forLoop (w :: ws) pos timeout c) = c /\
       existsb (fun x => isOnRowChange x || isMasterUpdate x || isMasterSave x)
               (trace (forLoop (w :: ws) pos timeout c)) = false).
Proof.
  intros w e ev c t Ev Hdb Hft.
  pose proof (handleRowsEvent_target w e ev c Ev Hdb) as H. rewrite Hft in H.
  split.
  - intros action Hty. rewrite H.
    assert (Hs : switch_EventType (EventType_ (Header e)) = Some action).
    { destruct Hty as [[[-> | ->] ->] | [[[-> | ->] ->] | [[-> | ->] ->]]]; reflexivity. }
    rewrite Hs. reflexivity.
  - intros Hty.
    assert (Hs : switch_EventType (EventType_ (Header e)) = None).
    { unfold switch_EventType.
      repeat match goal with
             | |- context [?a =? ?b] =>
                 destruct (Z.eqb_spec a b) as [Heq|_];
                 [exfalso; apply Hty; rewrite Heq; cbn; tauto|]
             end.
      reflexivity. }
    rewrite Hs in H. split; [exact H|].
    intros pos timeout ws E.
    rewrite forLoop_cons, (iteration_rows _ _ _ _ _ _ E Ev), H.
    cbn [result canal trace fst snd].
    repeat split. destruct (Log_IsInfo c); reflexivity.
Qed.

Lemma handleRowsEvent_classifies_witness :
  handleRowsEvent (Sample.deliver (Sample.rows "shop" replication.UPDATE_ROWS_EVENTv2))
                  (Sample.rows "shop" replication.UPDATE_ROWS_EVENTv2) Sample.shop
    = (Some (ErrOther "boom"), Sample.shop,
       [CallFindTable 7 "orders";
        CallOnRowChange 0 "update" Sample.orders [[CInt 1]];
        CallOnRowChange 1 "update" Sample.orders [[CInt 1]]]) /\
  result (forLoop [Sample.deliver (Sample.rows "shop" replication.WRITE_ROWS_EVENTv0);
                   Sample.deliver Sample.xid]
                  (masterStatus Sample.shop) Second Sample.shop)
    = Returned (Wrap (NotSupported "[binlogsync] EventType %v not yet supported")
                     "[binlogsync] handleRowsEvent").
Proof.
  split.
  - destruct (handleRowsEvent_classifies
                (Sample.deliver (Sample.rows "shop" replication.UPDATE_ROWS_EVENTv2))
                (Sample.rows "shop" replication.UPDATE_ROWS_EVENTv2)
                {| TableID := 7; Table_Schema := "shop";
                   Table_Table := "orders"; Rows_ := [[CInt 1]] |}
                Sample.shop Sample.orders eq_refl eq_refl eq_refl) as [H _].
    rewrite (H UpdateAction
               (or_intror (or_introl (conj (or_intror eq_refl) eq_refl)))).
    reflexivity.
  - destruct (handleRowsEvent_classifies
                (Sample.deliver (Sample.rows "shop" replication.WRITE_ROWS_EVENTv0))
                (Sample.rows "shop" replication.WRITE_ROWS_EVENTv0)
                {| TableID := 7; Table_Schema := "shop";
                   Table_Table := "orders"; Rows_ := [[CInt 1]] |}
                Sample.shop Sample.orders eq_refl eq_refl eq_refl) as [_ H].
    assert (Hty : ~ In (EventType_ (Header (Sample.rows "shop" replication.WRITE_ROWS_EVENTv0)))
                       [replication.WRITE_ROWS_EVENTv1; replication.WRITE_ROWS_EVENTv2;
                        replication.UPDATE_ROWS_EVENTv1; replication.UPDATE_ROWS_EVENTv2;
                        replication.DELETE_ROWS_EVENTv1; replication.DELETE_ROWS_EVENTv2]).
    { cbn. intros [D|[D|[D|[D|[D|[D|[]]]]]]]; discriminate D. }
    destruct (H Hty) as [_ Hloop].
    destruct (Hloop (masterStatus Sample.shop) Second [Sample.deliver Sample.xid] eq_refl)
      as [Hr _].
    exact Hr.
Defined.

(** C4.  A RowsEvent of a database other than the configured one makes
    [handleRowsEvent] return no error having resolved no table and
    called no handler; the pass goes on to call [masterUpdate] with the
    current segment and the event's trailing offset, then [masterSave],
    and the canal stands at that offset afterwards. *)
Theorem other_database_is_skipped_and_position_advances :
  forall w pos timeout c ev e,
    GetEvent w = inl ev -> Event_ ev = EvRows e -> wf_event ev ->
    dsn_DBName c <> Table_Schema e ->
    handleRowsEvent w ev c
      = (None, c,
         if Log_IsDebug c then [LogDebug "[binlogsync] Skipping database"] else []) /\
    result (iteration w pos timeout c)
      = Continue (set_Position (LogPos (Header ev)) pos) Second /\
    existsb (fun x => isFindTable x || isOnRowChange x)
            (trace (iteration w pos timeout c)) = false /\
    advanceThenPersist (File pos) (LogPos (Header ev))
                       (trace (iteration w pos timeout c)) /\
    File (masterStatus (canal (iteration w pos timeout c))) = File pos /\
    Position (masterStatus (canal (iteration w pos timeout c))) = LogPos (Header ev).
Proof.
  intros w pos timeout c ev e E Ev [Hwf _] Hdb.
  pose proof (handleRowsEvent_skip w ev e c Ev Hdb) as Hs.
  assert (Hp : atLogPos pos ev = set_Position (LogPos (Header ev)) pos).
  { unfold atLogPos. rewrite (GoIntFacts.to_uint_of_uint32 _ Hwf). reflexivity. }
  split; [exact Hs|].
  rewrite (iteration_rows _ _ _ _ _ _ E Ev), Hs, Hp.
  cbn [result canal trace fst snd].
  destruct (savePosition_trace w (set_Position (LogPos (Header ev)) pos) Second c)
    as [post [Ht Hpost]].
  split; [reflexivity|]. split; [|split].
  - rewrite Ht. cbn [existsb isFindTable isOnRowChange orb].
    rewrite existsb_app. cbn [existsb isFindTable isOnRowChange orb].
    rewrite (existsb_none isSaveEffect _ post); [|intros x; destruct x; cbn; congruence|exact Hpost].
    destruct (Log_IsDebug c); reflexivity.
  - change (CallGetEvent (2 * Second) :: ?a ++ ?t)
      with ((CallGetEvent (2 * Second) :: a) ++ t).
    apply (advanceThenPersist_intro _ w (set_Position (LogPos (Header ev)) pos)).
    destruct (Log_IsDebug c); reflexivity.
  - rewrite savePosition_masterStatus. split; reflexivity.
Qed.

Lemma other_database_is_skipped_and_position_advances_witness :
  handleRowsEvent (Sample.deliver (Sample.rows "blog" replication.WRITE_ROWS_EVENTv2))
                  (Sample.rows "blog" replication.WRITE_ROWS_EVENTv2) Sample.shop
    = (None, Sample.shop, []) /\
  advanceThenPersist "log.1" 200
    (trace (iteration (Sample.deliver (Sample.rows "blog" replication.WRITE_ROWS_EVENTv2))
                      (masterStatus Sample.shop) Second Sample.shop)).
Proof.
  assert (Hwf : wf_event (Sample.rows "blog" replication.WRITE_ROWS_EVENTv2)).
  { vm_compute. repeat split; (reflexivity || (intros H; discriminate H)). }
  assert (Hdb : dsn_DBName Sample.shop <> "blog").
  { intros D; discriminate D. }
  destruct (other_database_is_skipped_and_position_advances
              (Sample.deliver (Sample.rows "blog" replication.WRITE_ROWS_EVENTv2))
              (masterStatus Sample.shop) Second Sample.shop
              (Sample.rows "blog" replication.WRITE_ROWS_EVENTv2)
              {| TableID := 7; Table_Schema := "blog";
                 Table_Table := "orders"; Rows_ := [[CInt 1]] |}
              eq_refl eq_refl Hwf Hdb) as [Hs [_ [_ [Ha _]]]].
  split; [exact Hs | exact Ha].
Defined.

(** * Dispatch *)

(** C5.  The handlers are called one after the other in registration
    order: all of them when none returns an error; when one returns an
    error, those registered after it are not called for that event, and
    the error is what the dispatch returns.  [handleRowsEvent] passes it
    on and the loop returns it, wrapped, whatever the event source would
    deliver next, leaving the position where it was. *)
Theorem dispatch_is_fail_fast :
  forall action t rows c,
    ((forall h, In h (rsHandlers c) -> OnRowChange h action t rows = None) ->
     travelRowsEventHandler action t rows c
       = (None, c,
          map (fun j => CallOnRowChange j action t rows)
              (seq 0 (List.length (rsHandlers c))))) /\
    (forall hs1 h hs2 err,
       rsHandlers c = hs1 ++ h :: hs2 ->
       (forall h', In h' hs1 -> OnRowChange h' action t rows = None) ->
       OnRowChange h action t rows = Some err ->
       travelRowsEventHandler action t rows c
         = (Some err, c,
            map (fun j => CallOnRowChange j action t rows)
                (seq 0 (S (List.length hs1)))) /\
       forall w ev e pos timeout ws,
         GetEvent w = inl ev -> Event_ ev = EvRows e ->
         dsn_DBName c = Table_Schema e ->
         FindTable w (GoInt.to_int (TableID e)) (Table_Table e) = inl t ->
         switch_EventType (EventType_ (Header ev)) = Some action ->
         Rows_ e = rows ->
         forLoop (w :: ws) pos timeout c
           = (Returned (Wrap err "[binlogsync] handleRowsEvent"), c,
              CallGetEvent (2 * Second)
                :: CallFindTable (GoInt.to_int (TableID e)) (Table_Table e)
                :: map (fun j => CallOnRowChange j action t rows)
                       (seq 0 (S (List.length hs1)))
                ++ (if Log_IsInfo c
                    then [LogInfo "[binlogsync] Rotate binlog to a new position"]
                    else []))).
Proof.
  intros action t rows c. split.
  - intros Hok. unfold travelRowsEventHandler. rewrite bind_run.
    cbn [get result canal trace fst snd app].
    rewrite (travelFrom_ok (rsHandlers c) action t rows 0 c Hok). reflexivity.
  - intros hs1 h hs2 err Hhs Hok Herr.
    assert (Ht : travelRowsEventHandler action t rows c
                 = (Some err, c,
                    map (fun j => CallOnRowChange j action t rows)
                        (seq 0 (S (List.length hs1))))).
    { unfold travelRowsEventHandler. rewrite bind_run.
      cbn [get result canal trace fst snd app]. rewrite Hhs.
      rewrite (travelFrom_fail hs1 h hs2 action t rows err 0 c Hok Herr). reflexivity. }
    split; [exact Ht|].
    intros w ev e pos timeout ws E Ev Hdb Hft Hs Hrows.
    rewrite forLoop_cons, (iteration_rows _ _ _ _ _ _ E Ev).
    rewrite (handleRowsEvent_target w ev e c Ev Hdb), Hft, Hs, Hrows, Ht.
    cbn [result canal trace fst snd]. reflexivity.
Qed.

Lemma dispatch_is_fail_fast_witness :
  forLoop [Sample.deliver (Sample.rows "shop" replication.WRITE_ROWS_EVENTv1);
           Sample.deliver Sample.xid]
          (masterStatus Sample.shop) Second Sample.shop
    = (Returned (Wrap (ErrOther "boom") "[binlogsync] handleRowsEvent"), Sample.shop,
       [CallGetEvent (2 * Second);
        CallFindTable 7 "orders";
        CallOnRowChange 0 "insert" Sample.orders [[CInt 1]];
        CallOnRowChange 1 "insert" Sample.orders [[CInt 1]]]) /\
  travelRowsEventHandler DeleteAction Sample.orders [[CInt 1]] Sample.quietShop
    = (None, Sample.quietShop,
       [CallOnRowChange 0 "delete" Sample.orders [[CInt 1]];
        CallOnRowChange 1 "delete" Sample.orders [[CInt 1]]]).
Proof.
  split.
  - assert (Hok : forall h', In h' [Sample.accept] ->
                             OnRowChange h' InsertAction Sample.orders [[CInt 1]] = None).
    { intros h' [<-|[]]. reflexivity. }
    destruct (dispatch_is_fail_fast InsertAction Sample.orders [[CInt 1]] Sample.shop)
      as [_ H].
    destruct (H [Sample.accept] (Sample.reject "boom") [Sample.accept] (ErrOther "boom")
                eq_refl Hok eq_refl) as [_ Hloop].
    rewrite (Hloop (Sample.deliver (Sample.rows "shop" replication.WRITE_ROWS_EVENTv1))
               (Sample.rows "shop" replication.WRITE_ROWS_EVENTv1)
               {| TableID := 7; Table_Schema := "shop";
                  Table_Table := "orders"; Rows_ := [[CInt 1]] |}
               (masterStatus Sample.shop) Second [Sample.deliver Sample.xid]
               eq_refl eq_refl eq_refl eq_refl eq_refl eq_refl).
    reflexivity.
  - destruct (dispatch_is_fail_fast DeleteAction Sample.orders [[CInt 1]] Sample.quietShop)
      as [H _].
    rewrite H; [reflexivity|].
    intros h [<-|[<-|[]]]; reflexivity.
Defined.

(** * Errors of the event source *)

(** C6.  When [GetEvent] answers with the deadline of the bounded wait,
    the pass does nothing but double the [timeout] variable and the loop
    goes on to the next wait; when it answers with any other error the
    loop returns that error, wrapped, whatever the event source would
    deliver next. *)
Theorem GetEvent_deadline_continues_other_errors_return :
  forall w ws pos timeout c,
    (GetEvent w = inr DeadlineExceeded ->
     iteration w pos timeout c
       = (Continue pos (GoInt.to_int64 (2 * timeout)), c, [CallGetEvent (2 * Second)]) /\
     forLoop (w :: ws) pos timeout c
       = (result (forLoop ws pos (GoInt.to_int64 (2 * timeout)) c),
          canal (forLoop ws pos (GoInt.to_int64 (2 * timeout)) c),
          CallGetEvent (2 * Second)
            :: trace (forLoop ws pos (GoInt.to_int64 (2 * timeout)) c))) /\
    (forall err,
       GetEvent w = inr err -> err <> DeadlineExceeded ->
       forLoop (w :: ws) pos timeout c
         = (Returned (Wrap err "[binlogsync] startSyncBinlog.GetEvent"), c,
            [CallGetEvent (2 * Second)]) /\
       result (startSyncBinlog None (w :: ws) c)
         = Returned (Wrap err "[binlogsync] startSyncBinlog.GetEvent")).
Proof.
  intros w ws pos timeout c. split.
  - intros E. pose proof (iteration_timeout w pos timeout c E) as Hi.
    split; [exact Hi|].
    rewrite forLoop_cons, Hi. reflexivity.
  - intros err E Hne.
    assert (Hl : forall p d k,
               forLoop (w :: ws) p d k
               = (Returned (Wrap err "[binlogsync] startSyncBinlog.GetEvent"), k,
                  [CallGetEvent (2 * Second)])).
    { intros p d k. rewrite forLoop_cons, (iteration_error w p d k err E Hne).
      reflexivity. }
    split; [apply Hl|].
    unfold startSyncBinlog. rewrite !bind_run.
    cbn [get call result canal trace fst snd].
    destruct (Log_IsInfo c);
      cbn [when call ret result canal trace fst snd]; rewrite Hl; reflexivity.
Qed.

Lemma GetEvent_deadline_continues_other_errors_return_witness :
  forLoop [Sample.world (inr DeadlineExceeded) Sample.at5s None;
           Sample.world (inr (ErrOther "connection was bad")) Sample.at5s None;
           Sample.deliver Sample.xid]
          (masterStatus Sample.shop) Second Sample.shop
    = (Returned (Wrap (ErrOther "connection was bad")
                      "[binlogsync] startSyncBinlog.GetEvent"),
       Sample.shop,
       [CallGetEvent (2 * Second); CallGetEvent (2 * Second)]).
Proof.
  destruct (GetEvent_deadline_continues_other_errors_return
              (Sample.world (inr DeadlineExceeded) Sample.at5s None)
              [Sample.world (inr (ErrOther "connection was bad")) Sample.at5s None;
               Sample.deliver Sample.xid]
              (masterStatus Sample.shop) Second Sample.shop) as [H _].
  destruct (H eq_refl) as [_ Hloop]. rewrite Hloop.
  destruct (GetEvent_deadline_continues_other_errors_return
              (Sample.world (inr (ErrOther "connection was bad")) Sample.at5s None)
              [Sample.deliver Sample.xid]
              (masterStatus Sample.shop) (GoInt.to_int64 (2 * Second)) Sample.shop)
    as [_ H'].
  assert (Hne : ErrOther "connection was bad" <> DeadlineExceeded).
  { intros D; discriminate D. }
  destruct (H' (ErrOther "connection was bad") eq_refl Hne) as [Hret _].
  rewrite Hret. reflexivity.
Defined.

(** * The timeout variable *)

(** C9.  Every pass hands [GetEvent] a wait of exactly two seconds,
    whatever the [timeout] variable holds; after [n] wait-timeouts in a
    row the variable holds its initial value doubled [n] times (in
    64-bit arithmetic); and two runs of the loop that differ in the
    value of the variable only make the same calls in the same order,
    leave the same canal and end the same way. *)
Theorem timeout_variable_has_no_effect :
  forall w ws pos c t1 t2,
    waits (trace (iteration w pos t1 c)) = [2 * Second] /\
    Forall (fun d => d = 2 * Second) (waits (trace (forLoop ws pos t1 c))) /\
    forLoop (map waitTimeout ws) pos t1 c
      = (Waiting pos (doubled (List.length ws) t1), c,
         repeat (CallGetEvent (2 * Second)) (List.length ws)) /\
    trace (forLoop ws pos t1 c) = trace (forLoop ws pos t2 c) /\
    canal (forLoop ws pos t1 c) = canal (forLoop ws pos t2 c) /\
    sameOutcome (result (forLoop ws pos t1 c)) (result (forLoop ws pos t2 c)).
Proof.
  intros w0 ws pos c t1 t2.
  split; [apply iteration_waits|].
  split; [|split; [apply forLoop_waitTimeouts|]].
  - clear t2. revert pos t1 c.
    induction ws as [|w ws IH]; intros pos t1 c; [constructor|].
    rewrite forLoop_cons.
    pose proof (iteration_waits w pos t1 c) as Hw.
    destruct (result (iteration w pos t1 c)) as [p d|err];
      cbn [trace snd]; rewrite ?waits_app, Hw.
    + constructor; [reflexivity|apply IH].
    + constructor; [reflexivity|constructor].
  - destruct (forLoop_timeout_unused ws pos t1 t2 c) as [Ho [Hc Ht]]. auto.
Qed.

(** * Failures of the checkpoint store *)

Section SaveFailure.

Lemma no_save_in_flush ms n : forall i,
  existsb isMasterSave (map (fun j => CallOnFlush j ms) (seq i n)) = false.
Proof.
  intros i. apply (existsb_none isOnFlush).
  - intros x; destruct x; cbn; congruence.
  - apply forallb_map_seq. reflexivity.
Qed.

Lemma no_save_in_handleRowsEvent w e c :
  existsb isMasterSave (trace (handleRowsEvent w e c)) = false.
Proof.
  eapply existsb_none; [|apply handleRowsEvent_trace].
  intros x; destruct x; cbn; congruence.
Qed.

(** A pass that returns has not reached [masterSave]. *)
Lemma iteration_return_before_save w pos timeout c err :
  result (iteration w pos timeout c) = Return err ->
  existsb isMasterSave (trace (iteration w pos timeout c)) = false.
Proof.
  destruct (GetEvent w) as [ev|e] eqn:E.
  - destruct (Event_ ev) as [r|r|id s t|] eqn:Ev.
    + rewrite (iteration_rotate _ _ _ _ _ _ E Ev).
      destruct (firstError _); cbn [result trace fst snd]; [|discriminate].
      intros _. cbn [existsb isMasterSave orb]. apply no_save_in_flush.
    + rewrite (iteration_rows _ _ _ _ _ _ E Ev).
      destruct (result (handleRowsEvent w ev c)); cbn [result trace fst snd];
        [|discriminate].
      intros _. cbn [existsb isMasterSave orb].
      rewrite existsb_app, no_save_in_handleRowsEvent.
      destruct (Log_IsInfo _); reflexivity.
    + rewrite (iteration_tablemap _ _ _ _ _ _ _ _ E Ev). discriminate.
    + rewrite (iteration_other _ _ _ _ _ E Ev). discriminate.
  - unfold iteration. rewrite E.
    destruct (error_eqb e DeadlineExceeded); reflexivity.
Qed.

End SaveFailure.

(** C10.  When [masterSave] returns an error, lines 83 to 86 log it and
    the pass ends like any other, handing the loop's variables to the
    next pass; and a pass in which [masterSave] is called at all never
    returns: the loop goes on with what the event source delivers
    next. *)
Theorem masterSave_failure_is_not_fatal :
  forall w pos timeout c,
    (forall p d err,
       result (masterSave w (canal (masterUpdate (File p) (Position p) c))) = Some err ->
       savePosition w p d c
         = (Continue p d,
            canal (masterSave w (canal (masterUpdate (File p) (Position p) c))),
            CallMasterUpdate (File p) (Position p)
              :: trace (masterSave w (canal (masterUpdate (File p) (Position p) c)))
              ++ [LogInfo "[binlogsync] startSyncBinlog: Failed to save master position"])) /\
    (forall ws,
       existsb isMasterSave (trace (iteration w pos timeout c)) = true ->
       exists pos' timeout',
         result (iteration w pos timeout c) = Continue pos' timeout' /\
         forLoop (w :: ws) pos timeout c
           = (result (forLoop ws pos' timeout' (canal (iteration w pos timeout c))),
              canal (forLoop ws pos' timeout' (canal (iteration w pos timeout c))),
              trace (iteration w pos timeout c)
                ++ trace (forLoop ws pos' timeout' (canal (iteration w pos timeout c))))).
Proof.
  intros w pos timeout c. split.
  - intros p d err Hs. rewrite savePosition_spec, Hs. reflexivity.
  - intros ws Hsave. rewrite forLoop_cons.
    destruct (result (iteration w pos timeout c)) as [pos' timeout'|err] eqn:R.
    + exists pos', timeout'. split; reflexivity.
    + rewrite (iteration_return_before_save w pos timeout c err R) in Hsave.
      discriminate Hsave.
Qed.

Lemma masterSave_failure_is_not_fatal_witness :
  forLoop [Sample.diskFull Sample.xid; Sample.world (inr DeadlineExceeded) Sample.at5s None]
          (masterStatus Sample.shop) Second Sample.shop
    = (Waiting (MasterStatusAt "log.1" 231) (2 * Second),
       set_masterStatus (MasterStatusAt "log.1" 231) Sample.shop,
       [CallGetEvent (2 * Second);
        CallMasterUpdate "log.1" 231;
        CallMasterSave;
        CallWrite (MasterStatusAt "log.1" 231) (Some (ErrOther "disk full"));
        LogInfo "[binlogsync] startSyncBinlog: Failed to save master position";
        CallGetEvent (2 * Second)]).
Proof.
  destruct (masterSave_failure_is_not_fatal
              (Sample.diskFull Sample.xid) (masterStatus Sample.shop) Second Sample.shop)
    as [_ H].
  destruct (H [Sample.world (inr DeadlineExceeded) Sample.at5s None] eq_refl)
    as [pos' [timeout' [Hr Hl]]].
  rewrite Hl.
  change (result (iteration (Sample.diskFull Sample.xid) (masterStatus Sample.shop)
                            Second Sample.shop))
    with (Continue (MasterStatusAt "log.1" 231) Second) in Hr.
  injection Hr as <- <-. reflexivity.
Defined.

(** * Order of positions *)

(** C7.  [Compare] yields -1, 0 or 1; the segments decide whenever they
    differ, and the offsets decide, numerically, when the segments are
    equal; it is 0 exactly on equal segment and offset, it is
    antisymmetric and transitive; log.1:200 is below log.2:1, and the
    table of [TestMasterStatus_Compare] passes. *)
Theorem Compare_is_a_total_order_by_segment_then_offset :
  forall a b c,
    (Compare a b = -1 \/ Compare a b = 0 \/ Compare a b = 1) /\
    (String.compare (File a) (File b) = Lt -> Compare a b = -1) /\
    (String.compare (File a) (File b) = Gt -> Compare a b = 1) /\
    (File a = File b ->
     (Position a < Position b -> Compare a b = -1) /\
     (Position a = Position b -> Compare a b = 0) /\
     (Position a > Position b -> Compare a b = 1)) /\
    (Compare a b = 0 <-> File a = File b /\ Position a = Position b) /\
    Compare b a = - Compare a b /\
    (Compare a b = -1 -> Compare b c = -1 -> Compare a c = -1) /\
    Compare (MasterStatusAt "log.1" 100) (MasterStatusAt "log.1" 200) = -1 /\
    Compare (MasterStatusAt "log.1" 200) (MasterStatusAt "log.2" 1) = -1 /\
    TestMasterStatus_Compare = true.
Proof.
  intros a b c.
  split; [apply Compare_values|].
  split; [intros H; apply Compare_lt_iff; left; exact H|].
  split; [intros H; unfold Compare; rewrite H; reflexivity|].
  split.
  { intros Hf. unfold Compare. rewrite (proj2 (string_compare_eq _ _) Hf).
    destruct (Z.compare_spec (Position a) (Position b)); repeat split; intros; lia. }
  split; [apply Compare_eq_iff|].
  split; [apply Compare_antisym|].
  split; [apply Compare_lt_trans|].
  repeat split.
Qed.

Lemma Compare_is_a_total_order_by_segment_then_offset_witness :
  Compare (MasterStatusAt "mysql-bin.000001" 3) (MasterStatusAt "mysql-bin.000003" 1) = -1 /\
  Compare (MasterStatusAt "mysql-bin.000001" 3) (MasterStatusAt "mysql-bin.000002" 2) = -1 /\
  Compare (MasterStatusAt "mysql-bin.000003" 1) (MasterStatusAt "mysql-bin.000002" 2) = 1 /\
  Compare (MasterStatusAt "mysql-bin.000001" 3) (MasterStatusAt "mysql-bin.000001" 4) = -1 /\
  Compare (MasterStatusAt "mysql-bin.000001" 3) (MasterStatusAt "mysql-bin.000001" 3) = 0 /\
  Compare (MasterStatusAt "mysql-bin.000001" 3) (MasterStatusAt "mysql-bin.000001" 2) = 1.
Proof.
  destruct (Compare_is_a_total_order_by_segment_then_offset
              (MasterStatusAt "mysql-bin.000001" 3)
              (MasterStatusAt "mysql-bin.000002" 2)
              (MasterStatusAt "mysql-bin.000003" 1))
    as [_ [Hlt [_ [_ [_ [_ [Htrans _]]]]]]].
  destruct (Compare_is_a_total_order_by_segment_then_offset
              (MasterStatusAt "mysql-bin.000003" 1)
              (MasterStatusAt "mysql-bin.000002" 2)
              (MasterStatusAt "mysql-bin.000002" 2))
    as [_ [_ [Hgt _]]].
  destruct (Compare_is_a_total_order_by_segment_then_offset
              (MasterStatusAt "mysql-bin.000001" 3)
              (MasterStatusAt "mysql-bin.000001" 4)
              (MasterStatusAt "mysql-bin.000001" 4))
    as [_ [_ [_ [Hbelow _]]]].
  destruct (Compare_is_a_total_order_by_segment_then_offset
              (MasterStatusAt "mysql-bin.000001" 3)
              (MasterStatusAt "mysql-bin.000001" 3)
              (MasterStatusAt "mysql-bin.000001" 3))
    as [_ [_ [_ [Hequal _]]]].
  destruct (Compare_is_a_total_order_by_segment_then_offset
              (MasterStatusAt "mysql-bin.000001" 3)
              (MasterStatusAt "mysql-bin.000001" 2)
              (MasterStatusAt "mysql-bin.000001" 2))
    as [_ [_ [_ [Habove _]]]].
  split; [apply Htrans; reflexivity|].
  split; [apply Hlt; reflexivity|].
  split; [apply Hgt; reflexivity|].
  split; [apply (proj1 (Hbelow eq_refl)); reflexivity|].
  split; [apply (proj1 (proj2 (Hequal eq_refl))); reflexivity|].
  apply (proj2 (proj2 (Habove eq_refl))); reflexivity.
Defined.

(** * Debounced persistence *)

Section Debounce.








End Debounce.



(** * The scenario of the specification *)

(** The event source delivers a Rotate to log.2:4 and then an insert of
    one row into shop.orders that ends at offset 200: every handler is
    told of the flush while the canal still stands at log.1:100, the
    table is resolved, every handler receives the insert, and the canal
    ends at log.2:200. *)
Example rotate_then_rows :
  startSyncBinlog None
    [Sample.deliver Sample.rotate;
     Sample.deliver (Sample.rows "shop" replication.WRITE_ROWS_EVENTv2)]
    Sample.quietShop
  = (Waiting (MasterStatusAt "log.2" 200) Second,
     set_masterLastSaveTime Sample.at5s
       (set_masterStatus (MasterStatusAt "log.2" 200) Sample.quietShop),
     [LogInfo "[binlogsync] Start syncing of binlog";
      CallStartSync "log.1" 100;
      CallGetEvent (2 * Second);
      CallOnFlush 0 (MasterStatusAt "log.1" 100);
      CallOnFlush 1 (MasterStatusAt "log.1" 100);
      LogInfo "[binlogsync] Rotate binlog to a new position";
      CallMasterUpdate "log.2" 4;
      CallMasterSave;
      CallWrite (MasterStatusAt "log.2" 4) None;
      CallGetEvent (2 * Second);
      CallFindTable 7 "orders";
      CallOnRowChange 0 "insert" Sample.orders [[CInt 1]];
      CallOnRowChange 1 "insert" Sample.orders [[CInt 1]];
      CallMasterUpdate "log.2" 200;
      CallMasterSave]).
Proof. reflexivity. Qed.


(** * The loop over any [masterUpdate] and [masterSave] *)

Arguments savePositionWith : simpl never.
Arguments CanalGo.masterSave : simpl never.
Arguments CanalGo.masterUpdate : simpl never.

Section LinkedRuns.

Variable update : string -> Z -> M unit.
Variable save : World -> M (option error).

Lemma savePositionWith_result w p d c :
  result (savePositionWith update save w p d c) = Continue p d.
Proof. unfold savePositionWith. rewrite !bind_run. reflexivity. Qed.

Lemma savePositionWith_run w p d c :
  savePositionWith update save w p d c =
    (Continue p d,
     canal (save w (canal (update (File p) (Position p) c))),
     trace (update (File p) (Position p) c)
       ++ trace (save w (canal (update (File p) (Position p) c)))
       ++ match result (save w (canal (update (File p) (Position p) c))) with
          | Some _ =>
              [LogInfo "[binlogsync] startSyncBinlog: Failed to save master position"]
          | None => []
          end).
Proof.
  unfold savePositionWith. rewrite !bind_run.
  destruct (result (save w (canal (update (File p) (Position p) c))));
    cbn [ret call result canal trace fst snd app]; rewrite ?app_nil_r; reflexivity.
Qed.

(** One pass, case by case. *)
Lemma iterationWith_cases w pos timeout c :
  iterationWith update save w pos timeout c =
    match GetEvent w with
    | inr err =>
        if error_eqb err DeadlineExceeded then
          (Continue pos (GoInt.to_int64 (2 * timeout)), c, [CallGetEvent (2 * Second)])
        else
          (Return (Wrap err "[binlogsync] startSyncBinlog.GetEvent"), c,
           [CallGetEvent (2 * Second)])
    | inl ev =>
        match Event_ ev with
        | EvRotate e =>
            match firstError (map (fun h => OnFlush h (masterStatus c)) (rsHandlers c)) with
            | Some err =>
                (Return (Wrap err "[binlogsync] startSyncBinlog.flushEventHandlers"), c,
                 CallGetEvent (2 * Second)
                   :: map (fun j => CallOnFlush j (masterStatus c))
                          (seq 0 (List.length (rsHandlers c))))
            | None =>
                (Continue (positionAfter ev pos) Second,
                 canal (savePositionWith update save w (positionAfter ev pos) Second c),
                 CallGetEvent (2 * Second)
                   :: map (fun j => CallOnFlush j (masterStatus c))
                          (seq 0 (List.length (rsHandlers c)))
                   ++ (if Log_IsInfo c
                       then [LogInfo "[binlogsync] Rotate binlog to a new position"]
                       else [])
                   ++ trace (savePositionWith update save w (positionAfter ev pos)
                                              Second c))
            end
        | EvRows e =>
            match result (handleRowsEvent w ev c) with
            | Some err =>
                (Return (Wrap err "[binlogsync] handleRowsEvent"), c,
                 CallGetEvent (2 * Second) :: trace (handleRowsEvent w ev c)
                   ++ (if Log_IsInfo c
                       then [LogInfo "[binlogsync] Rotate binlog to a new position"]
                       else []))
            | None =>
                (Continue (atLogPos pos ev) Second,
                 canal (savePositionWith update save w (atLogPos pos ev) Second c),
                 CallGetEvent (2 * Second) :: trace (handleRowsEvent w ev c)
                   ++ trace (savePositionWith update save w (atLogPos pos ev) Second c))
            end
        | EvTableMap _ _ _ =>
            (Continue (atLogPos pos ev) Second, c, [CallGetEvent (2 * Second)])
        | EvOther =>
            (Continue (atLogPos pos ev) Second,
             canal (savePositionWith update save w (atLogPos pos ev) Second c),
             CallGetEvent (2 * Second)
               :: trace (savePositionWith update save w (atLogPos pos ev) Second c))
        end
    end.
Proof.
  unfold iterationWith. destruct (GetEvent w) as [ev|err].
  - fold (atLogPos pos ev).
    destruct (Event_ ev) as [e|e|id s t|] eqn:Ev.
    + rewrite !bind_run. rewrite flushEventHandlers_spec.
      cbn [result canal trace fst snd call].
      destruct (firstError _) as [err|].
      * cbn [ret fst snd app]. rewrite app_nil_r. reflexivity.
      * rewrite !bind_run. cbn [get result canal trace fst snd app].
        replace (set_Position (GoInt.to_uint (Rotate_Position e))
                   (set_File (NextLogName e) (atLogPos pos ev)))
          with (positionAfter ev pos) by (unfold positionAfter; rewrite Ev; reflexivity).
        destruct (Log_IsInfo c); cbn [when ret call canal result trace fst snd app];
          rewrite savePositionWith_result; reflexivity.
    + rewrite !bind_run. cbn [call result canal trace fst snd app].
      pose proof (handleRowsEvent_canal w ev c) as Hc.
      pose proof Hc as Hc'. unfold canal in Hc'.
      destruct (result (handleRowsEvent w ev c)) as [err|].
      * rewrite !bind_run. cbn [get ret result canal trace fst snd app].
        rewrite ?Hc, ?Hc'.
        destruct (Log_IsInfo c); cbn [when ret call fst snd app];
          rewrite ?app_nil_r; reflexivity.
      * rewrite savePositionWith_result, ?Hc, ?Hc'. reflexivity.
    + rewrite bind_run. reflexivity.
    + rewrite bind_run. cbn [call result canal trace fst snd app].
      rewrite savePositionWith_result. reflexivity.
  - rewrite bind_run. destruct (error_eqb err DeadlineExceeded); reflexivity.
Qed.

Lemma forLoopWith_cons w ws pos timeout c :
  forLoopWith update save (w :: ws) pos timeout c =
    match result (iterationWith update save w pos timeout c) with
    | Continue pos' timeout' =>
        (result (forLoopWith update save ws pos' timeout'
                   (canal (iterationWith update save w pos timeout c))),
         canal (forLoopWith update save ws pos' timeout'
                  (canal (iterationWith update save w pos timeout c))),
         trace (iterationWith update save w pos timeout c)
           ++ trace (forLoopWith update save ws pos' timeout'
                       (canal (iterationWith update save w pos timeout c))))
    | Return err =>
        (Returned err, canal (iterationWith update save w pos timeout c),
         trace (iterationWith update save w pos timeout c))
    end.
Proof.
  cbn [forLoopWith]. rewrite bind_run.
  destruct (result (iterationWith update save w pos timeout c)); [reflexivity|].
  cbn [ret result canal trace fst snd]. rewrite app_nil_r. reflexivity.
Qed.


End LinkedRuns.

(** The loop used above is the loop over the two functions it names. *)
Lemma iteration_is_linked w pos timeout c :
  iterationWith masterUpdate masterSave w pos timeout c = iteration w pos timeout c.
Proof. reflexivity. Qed.

Lemma forLoop_is_linked ws : forall pos timeout c,
  forLoopWith masterUpdate masterSave ws pos timeout c = forLoop ws pos timeout c.
Proof.
  induction ws as [|w ws IH]; intros pos timeout c; [reflexivity|].
  rewrite forLoopWith_cons, forLoop_cons, iteration_is_linked.
  destruct (result (iteration w pos timeout c)); [rewrite IH|]; reflexivity.
Qed.

(** * canal.go: [masterSave] and [masterUpdate] *)

Section CanalGoFacts.

(** The saturation of [Sub] cannot be told from the plain difference
    when it is compared with one second. *)
Lemma Sub_lt_Second t u : (CanalGo.Sub t u <? Second) = (t - u <? Second).
Proof.
  unfold CanalGo.Sub, CanalGo.maxDuration, CanalGo.minDuration, Second.
  destruct (Z.ltb_spec (2 ^ 63 - 1) (t - u)).
  - destruct (Z.ltb_spec (2 ^ 63 - 1) 1000000000); [lia|].
    destruct (Z.ltb_spec (t - u) 1000000000); [lia|reflexivity].
  - destruct (Z.ltb_spec (t - u) (- 2 ^ 63)); [|reflexivity].
    destruct (Z.ltb_spec (- 2 ^ 63) 1000000000); [|lia].
    destruct (Z.ltb_spec (t - u) 1000000000); [reflexivity|lia].
Qed.

Lemma Sub_mono t t' u : t <= t' -> CanalGo.Sub t u <= CanalGo.Sub t' u.
Proof.
  unfold CanalGo.Sub, CanalGo.maxDuration, CanalGo.minDuration. intros H.
  destruct (Z.ltb_spec (2 ^ 63 - 1) (t - u));
    destruct (Z.ltb_spec (2 ^ 63 - 1) (t' - u));
    destruct (Z.ltb_spec (t - u) (- 2 ^ 63));
    destruct (Z.ltb_spec (t' - u) (- 2 ^ 63)); lia.
Qed.

Lemma CanalGo_masterUpdate_spec f p c :
  CanalGo.masterUpdate f p c = masterUpdate f p c.
Proof. reflexivity. Qed.

Lemma CanalGo_masterSave_cases w c :
  CanalGo.masterSave w c =
    if Now w - masterLastSaveTime c <? Second then
      (None, c, [CallMasterSave])
    else if negb (hasCheckpointStore c) then
      (None, c,
       CallMasterSave
         :: (if Log_IsDebug c
             then [LogDebug
                     "[binlogsync] Master Status cannot be saved because config.Writer is nil"]
             else []))
    else
      match Write w (masterStatus c) with
      | Some err =>
          (Some (Wrap err "[binlogsync] failed to write into config"), c,
           [CallMasterSave; CallWrite (masterStatus c) (Some err)])
      | None =>
          (None, set_masterLastSaveTime (Now w) c,
           [CallMasterSave; CallWrite (masterStatus c) None])
      end.
Proof.
  unfold CanalGo.masterSave, bind, call, get, modify, ret. cbn.
  rewrite Sub_lt_Second.
  destruct (Now w - masterLastSaveTime c <? Second); [reflexivity|].
  destruct (hasCheckpointStore c); cbn.
  - destruct (Write w (masterStatus c)); reflexivity.
  - destruct (Log_IsDebug c); reflexivity.
Qed.

Lemma withoutDebug_app t1 t2 :
  withoutDebug (t1 ++ t2) = withoutDebug t1 ++ withoutDebug t2.
Proof. apply filter_app. Qed.

Lemma withoutDebug_writes t : writes (withoutDebug t) = writes t.
Proof.
  unfold writes, withoutDebug.
  induction t as [|x t IH]; [reflexivity|].
  destruct x as [| | | | | | |ms [e|]| |]; cbn; rewrite ?IH; reflexivity.
Qed.

Lemma withoutDebug_waits t : waits (withoutDebug t) = waits t.
Proof.
  unfold withoutDebug.
  induction t as [|x t IH]; [reflexivity|].
  destruct x; cbn; rewrite ?IH; reflexivity.
Qed.

End CanalGoFacts.

(** * Two loops that differ in their [masterSave] *)

Section TwoLoops.

Variables update1 update2 : string -> Z -> M unit.
Variables save1 save2 : World -> M (option error).

Hypothesis update_same : forall f p c, update1 f p c = update2 f p c.
Hypothesis save_alike : forall w c,
  canal (save1 w c) = canal (save2 w c) /\
  withoutDebug (trace (save1 w c)) = withoutDebug (trace (save2 w c)) /\
  (result (save1 w c) = None <-> result (save2 w c) = None).

Lemma savePositionWith_alike w p d c :
  canal (savePositionWith update1 save1 w p d c)
    = canal (savePositionWith update2 save2 w p d c) /\
  withoutDebug (trace (savePositionWith update1 save1 w p d c))
    = withoutDebug (trace (savePositionWith update2 save2 w p d c)).
Proof.
  rewrite !savePositionWith_run. cbn [canal trace fst snd].
  rewrite update_same.
  destruct (save_alike w (canal (update2 (File p) (Position p) c))) as [Hc [Ht Hr]].
  split; [exact Hc|].
  rewrite !withoutDebug_app, Ht.
  destruct (result (save1 w _)) as [e1|], (result (save2 w _)) as [e2|];
    try reflexivity.
  - destruct Hr as [_ Hr]. discriminate (Hr eq_refl).
  - destruct Hr as [Hr _]. discriminate (Hr eq_refl).
Qed.

Lemma iterationWith_alike w pos timeout c :
  result (iterationWith update1 save1 w pos timeout c)
    = result (iterationWith update2 save2 w pos timeout c) /\
  canal (iterationWith update1 save1 w pos timeout c)
    = canal (iterationWith update2 save2 w pos timeout c) /\
  withoutDebug (trace (iterationWith update1 save1 w pos timeout c))
    = withoutDebug (trace (iterationWith update2 save2 w pos timeout c)).
Proof.
  rewrite !iterationWith_cases.
  destruct (GetEvent w) as [ev|err].
  - destruct (Event_ ev) as [e|e|id s t|].
    + destruct (firstError _); [repeat split|].
      destruct (savePositionWith_alike w (positionAfter ev pos) Second c) as [Hc Ht].
      cbn [result canal trace fst snd]. repeat split; [exact Hc|].
      unfold withoutDebug in *. cbn [filter isDebugLine negb].
      rewrite !filter_app, Ht. reflexivity.
    + destruct (result (handleRowsEvent w ev c)); [repeat split|].
      destruct (savePositionWith_alike w (atLogPos pos ev) Second c) as [Hc Ht].
      cbn [result canal trace fst snd]. repeat split; [exact Hc|].
      unfold withoutDebug in *. cbn [filter isDebugLine negb].
      rewrite !filter_app, Ht. reflexivity.
    + repeat split.
    + destruct (savePositionWith_alike w (atLogPos pos ev) Second c) as [Hc Ht].
      cbn [result canal trace fst snd]. repeat split; [exact Hc|].
      unfold withoutDebug in *. cbn [filter isDebugLine negb].
      rewrite Ht. reflexivity.
  - destruct (error_eqb err DeadlineExceeded); repeat split.
Qed.

Lemma forLoopWith_alike ws : forall pos timeout c,
  result (forLoopWith update1 save1 ws pos timeout c)
    = result (forLoopWith update2 save2 ws pos timeout c) /\
  canal (forLoopWith update1 save1 ws pos timeout c)
    = canal (forLoopWith update2 save2 ws pos timeout c) /\
  withoutDebug (trace (forLoopWith update1 save1 ws pos timeout c))
    = withoutDebug (trace (forLoopWith update2 save2 ws pos timeout c)).
Proof.
  induction ws as [|w ws IH]; intros pos timeout c; [repeat split|].
  rewrite !forLoopWith_cons.
  destruct (iterationWith_alike w pos timeout c) as [Hr [Hc Ht]].
  rewrite <- Hr, <- Hc.
  destruct (result (iterationWith update1 save1 w pos timeout c)) as [p d|err].
  - destruct (IH p d (canal (iterationWith update1 save1 w pos timeout c)))
      as [Hr' [Hc' Ht']].
    cbn [result canal trace fst snd]. rewrite !withoutDebug_app, Ht, Ht'. auto.
  - cbn [result canal trace fst snd]. auto.
Qed.

End TwoLoops.

Section SourceAndModel.

Lemma masterSave_alike w c :
  canal (CanalGo.masterSave w c) = canal (masterSave w c) /\
  withoutDebug (trace (CanalGo.masterSave w c)) = withoutDebug (trace (masterSave w c)) /\
  result (CanalGo.masterSave w c)
    = option_map (fun e => Wrap e "[binlogsync] failed to write into config")
                 (result (masterSave w c)).
Proof.
  rewrite CanalGo_masterSave_cases, masterSave_cases.
  destruct (hasCheckpointStore c); cbn [negb].
  - destruct (Now w - masterLastSaveTime c <? Second); [repeat split|].
    destruct (Write w (masterStatus c)); repeat split.
  - destruct (Now w - masterLastSaveTime c <? Second), (Log_IsDebug c); repeat split.
Qed.

Lemma masterSave_alike_none w c :
  canal (CanalGo.masterSave w c) = canal (masterSave w c) /\
  withoutDebug (trace (CanalGo.masterSave w c)) = withoutDebug (trace (masterSave w c)) /\
  (result (CanalGo.masterSave w c) = None <-> result (masterSave w c) = None).
Proof.
  destruct (masterSave_alike w c) as [Hc [Ht Hr]].
  split; [exact Hc|]. split; [exact Ht|]. rewrite Hr.
  destruct (result (masterSave w c)); cbn; split; congruence.
Qed.

Lemma linked_forLoop_alike ws pos timeout c :
  result (Linked.forLoop ws pos timeout c) = result (forLoop ws pos timeout c) /\
  canal (Linked.forLoop ws pos timeout c) = canal (forLoop ws pos timeout c) /\
  withoutDebug (trace (Linked.forLoop ws pos timeout c))
    = withoutDebug (trace (forLoop ws pos timeout c)).
Proof.
  rewrite <- forLoop_is_linked. unfold Linked.forLoop.
  apply forLoopWith_alike.
  - apply CanalGo_masterUpdate_spec.
  - apply masterSave_alike_none.
Qed.

End SourceAndModel.

(** X1.  [masterSave] as canal.go has it and [masterSave] as modelled
    from the specification leave the same canal and make the same calls
    but for debug lines, and one returns an error exactly when the other
    does: the store's error, which canal.go wraps.  They differ in that
    canal.go looks at the clock before it looks for the store, so that
    within a second of the last save it is silent even without a store,
    and logs the missing store at debug level only. *)
Theorem masterSave_model_agrees_with_source :
  forall w c,
    canal (CanalGo.masterSave w c) = canal (masterSave w c) /\
    withoutDebug (trace (CanalGo.masterSave w c))
      = withoutDebug (trace (masterSave w c)) /\
    result (CanalGo.masterSave w c)
      = option_map (fun e => Wrap e "[binlogsync] failed to write into config")
                   (result (masterSave w c)) /\
    (hasCheckpointStore c = false ->
     Now w - masterLastSaveTime c < Second ->
     trace (CanalGo.masterSave w c) = [CallMasterSave] /\
     trace (masterSave w c) <> [CallMasterSave]).
Proof.
  intros w c. destruct (masterSave_alike w c) as [Hc [Ht Hr]].
  repeat (split; [assumption|]).
  intros Hs Hq. rewrite CanalGo_masterSave_cases, masterSave_cases, Hs.
  destruct (Z.ltb_spec (Now w - masterLastSaveTime c) Second); [|lia].
  split; [reflexivity|]. cbn. discriminate.
Qed.

Lemma masterSave_model_agrees_with_source_witness :
  trace (CanalGo.masterSave (Sample.deliver Sample.xid)
           (set_masterLastSaveTime Sample.at5s Sample.storeless))
    = [CallMasterSave] /\
  trace (masterSave (Sample.deliver Sample.xid)
           (set_masterLastSaveTime Sample.at5s Sample.storeless))
    <> [CallMasterSave].
Proof.
  destruct (masterSave_model_agrees_with_source (Sample.deliver Sample.xid)
              (set_masterLastSaveTime Sample.at5s Sample.storeless))
    as [_ [_ [_ H]]].
  apply H; [reflexivity|]. vm_compute. reflexivity.
Defined.

(** X2.  The loop of sync.go linked with canal.go and the loop used for
    the claims end the same way, leave the same canal and make the same
    calls in the same order, debug lines apart, on every script of
    answers. *)
Theorem linked_loop_agrees_with_claims_loop :
  forall start ws c,
    result (Linked.startSyncBinlog start ws c) = result (startSyncBinlog start ws c) /\
    canal (Linked.startSyncBinlog start ws c) = canal (startSyncBinlog start ws c) /\
    withoutDebug (trace (Linked.startSyncBinlog start ws c))
      = withoutDebug (trace (startSyncBinlog start ws c)).
Proof.
  intros start ws c.
  unfold Linked.startSyncBinlog, startSyncBinlogWith, startSyncBinlog.
  change (forLoopWith CanalGo.masterUpdate CanalGo.masterSave) with Linked.forLoop.
  rewrite !bind_run. cbn [get result canal trace fst snd app].
  destruct start as [err|]; [repeat split|].
  destruct (linked_forLoop_alike ws (masterStatus c) Second c) as [Hr [Hc Ht]].
  destruct (Log_IsInfo c); cbn [when call ret result canal trace fst snd app];
    (split; [exact Hr|]; split; [exact Hc|]);
    unfold withoutDebug in *; cbn [filter isDebugLine negb]; rewrite Ht; reflexivity.
Qed.

(** * Writes of the linked loop *)

Section LinkedWrites.

Lemma writes_none t :
  forallb (fun x => negb (isWritten x)) t = true -> writes t = 0%nat.
Proof.
  unfold writes. induction t as [|x t IH]; [reflexivity|].
  cbn [forallb]. intros H. apply andb_true_iff in H as [Hx Ht].
  cbn [filter]. destruct (isWritten x); [discriminate|]. apply IH, Ht.
Qed.

Lemma writes_flush ms n i :
  writes (map (fun j => CallOnFlush j ms) (seq i n)) = 0%nat.
Proof. apply writes_none, forallb_map_seq. reflexivity. Qed.

Lemma writes_handleRowsEvent w e c : writes (trace (handleRowsEvent w e c)) = 0%nat.
Proof.
  apply writes_none. eapply forallb_weaken; [|apply handleRowsEvent_trace].
  intros x; destruct x; cbn; congruence.
Qed.

Lemma CanalGo_masterSave_wrote w c : wroteAtMostOnce w c (CanalGo.masterSave w c).
Proof.
  unfold wroteAtMostOnce. rewrite CanalGo_masterSave_cases.
  destruct (Z.ltb_spec (Now w - masterLastSaveTime c) Second); [left; split; reflexivity|].
  destruct (hasCheckpointStore c); cbn [negb].
  - destruct (Write w (masterStatus c)); [left; split; reflexivity|].
    right. repeat split. exact H.
  - left. destruct (Log_IsDebug c); split; reflexivity.
Qed.

Lemma linked_savePosition_wrote w p d c :
  wroteAtMostOnce w c (savePositionWith CanalGo.masterUpdate CanalGo.masterSave w p d c).
Proof.
  unfold wroteAtMostOnce. rewrite savePositionWith_run. cbn [canal trace fst snd].
  rewrite !writes_app.
  destruct (CanalGo_masterSave_wrote w
              (canal (CanalGo.masterUpdate (File p) (Position p) c))) as [[Hw Hl]|[Hw [Hl Hq]]];
    rewrite Hw, Hl;
    replace (writes (trace (CanalGo.masterUpdate (File p) (Position p) c))) with 0%nat
      by reflexivity;
    replace (writes match result (CanalGo.masterSave w
                                    (canal (CanalGo.masterUpdate (File p) (Position p) c)))
                    with
                    | Some _ =>
                        [LogInfo "[binlogsync] startSyncBinlog: Failed to save master position"]
                    | None => []
                    end) with 0%nat
      by (destruct (result _); reflexivity).
  - left. split; reflexivity.
  - right. repeat split. exact Hq.
Qed.

Lemma linked_iteration_wrote w pos timeout c :
  wroteAtMostOnce w c (Linked.iteration w pos timeout c).
Proof.
  unfold Linked.iteration. rewrite iterationWith_cases.
  assert (Hnone : forall (f : Flow) t, writes t = 0%nat -> wroteAtMostOnce w c (f, c, t)).
  { intros f t Ht. left. split; [exact Ht|reflexivity]. }
  assert (Hsave : forall (f : Flow) pre p,
             writes pre = 0%nat ->
             wroteAtMostOnce w c
               (f, canal (savePositionWith CanalGo.masterUpdate CanalGo.masterSave
                                           w p Second c),
                pre ++ trace (savePositionWith CanalGo.masterUpdate CanalGo.masterSave
                                               w p Second c))).
  { intros f pre p Hpre. unfold wroteAtMostOnce. cbn [canal trace fst snd].
    rewrite writes_app, Hpre. apply linked_savePosition_wrote. }
  destruct (GetEvent w) as [ev|err].
  - destruct (Event_ ev) as [e|e|id s t|].
    + destruct (firstError _).
      * apply Hnone. apply (writes_flush _ _ 0).
      * rewrite app_comm_cons, app_assoc. apply Hsave.
        rewrite writes_app.
        change (writes (CallGetEvent (2 * Second) :: ?t)) with (writes t).
        rewrite writes_flush. destruct (Log_IsInfo c); reflexivity.
    + destruct (result (handleRowsEvent w ev c)).
      * apply Hnone.
        change (writes (CallGetEvent (2 * Second) :: ?t)) with (writes t).
        rewrite writes_app, writes_handleRowsEvent.
        destruct (Log_IsInfo c); reflexivity.
      * rewrite app_comm_cons. apply Hsave.
        change (writes (CallGetEvent (2 * Second) :: ?t)) with (writes t).
        apply writes_handleRowsEvent.
    + apply Hnone. reflexivity.
    + apply (Hsave _ [CallGetEvent (2 * Second)]). reflexivity.
  - destruct (error_eqb err DeadlineExceeded); apply Hnone; reflexivity.
Qed.

Lemma linked_forLoop_quiet ws : forall pos timeout c t0,
  (forall w, In w ws -> Now w < t0 + Second) ->
  t0 <= masterLastSaveTime c ->
  writes (trace (Linked.forLoop ws pos timeout c)) = 0%nat.
Proof.
  induction ws as [|w ws IH]; intros pos timeout c t0 Hwin Hlast; [reflexivity|].
  unfold Linked.forLoop. rewrite forLoopWith_cons.
  fold Linked.forLoop. fold (Linked.iteration w pos timeout c).
  pose proof (Hwin w (or_introl eq_refl)) as Hw.
  destruct (linked_iteration_wrote w pos timeout c) as [[Hz Hl]|[_ [_ Hq]]]; [|lia].
  destruct (result (Linked.iteration w pos timeout c)) as [p d|err];
    cbn [trace snd]; rewrite ?writes_app, Hz; [|reflexivity].
  cbn [Nat.add]. apply (IH _ _ _ t0).
  - intros w' Hin. apply Hwin. right. exact Hin.
  - rewrite Hl. exact Hlast.
Qed.

Lemma linked_forLoop_at_most_one_write ws : forall pos timeout c t0,
  (forall w, In w ws -> t0 <= Now w < t0 + Second) ->
  (writes (trace (Linked.forLoop ws pos timeout c)) <= 1)%nat.
Proof.
  induction ws as [|w ws IH]; intros pos timeout c t0 Hwin; [cbn; lia|].
  unfold Linked.forLoop. rewrite forLoopWith_cons.
  fold Linked.forLoop. fold (Linked.iteration w pos timeout c).
  pose proof (Hwin w (or_introl eq_refl)) as Hw.
  assert (Hrest : forall w', In w' ws -> t0 <= Now w' < t0 + Second).
  { intros w' Hin. apply Hwin. right. exact Hin. }
  destruct (linked_iteration_wrote w pos timeout c) as [[Hz Hl]|[Ho [Hl _]]];
    destruct (result (Linked.iteration w pos timeout c)) as [p d|err];
    cbn [trace snd]; rewrite ?writes_app, ?Hz, ?Ho; try lia.
  - cbn [Nat.add]. apply (IH _ _ _ t0 Hrest).
  - rewrite (linked_forLoop_quiet ws p d _ t0); [lia| |lia].
    intros w' Hin. apply (Hrest w' Hin).
Qed.

End LinkedWrites.

(** X3.  In a run of the loop linked with canal.go all of whose clock
    readings lie within one window shorter than a second, the
    checkpoint store accepts at most one write, whatever events arrive
    and whatever the handlers and the store answer. *)
Theorem linked_loop_is_debounced :
  forall ws pos timeout c t0,
    (forall w, In w ws -> t0 <= Now w < t0 + Second) ->
    (writes (trace (Linked.forLoop ws pos timeout c)) <= 1)%nat.
Proof. intros ws pos timeout c t0. apply linked_forLoop_at_most_one_write. Qed.

Lemma linked_loop_is_debounced_witness :
  (writes (trace (Linked.forLoop
                    [Sample.deliver Sample.rotate;
                     Sample.deliver (Sample.rows "shop" replication.WRITE_ROWS_EVENTv2);
                     Sample.deliver Sample.xid]
                    (masterStatus Sample.quietShop) Second Sample.quietShop)) <= 1)%nat.
Proof.
  apply (linked_loop_is_debounced _ _ _ _ Sample.at5s).
  intros w [<-|[<-|[<-|[]]]]; vm_compute;
    (split; [intros D; discriminate D | reflexivity]).
Defined.

(** X4.  A write the store refuses does not start the one-second
    pause: [masterSave] returns the store's error, wrapped, and leaves
    the canal as it was, so that the next call, at whatever clock
    reading from then on, attempts the write again. *)
Theorem refused_write_is_retried :
  forall w w' c err,
    result (CanalGo.masterSave w c) = Some err ->
    Now w <= Now w' ->
    (exists cause, Write w (masterStatus c) = Some cause /\
                   err = Wrap cause "[binlogsync] failed to write into config") /\
    canal (CanalGo.masterSave w c) = c /\
    trace (CanalGo.masterSave w' c)
      = [CallMasterSave; CallWrite (masterStatus c) (Write w' (masterStatus c))].
Proof.
  intros w w' c err Hr Hle.
  rewrite !CanalGo_masterSave_cases in *.
  destruct (Z.ltb_spec (Now w - masterLastSaveTime c) Second); [discriminate Hr|].
  destruct (Z.ltb_spec (Now w' - masterLastSaveTime c) Second); [lia|].
  destruct (hasCheckpointStore c); cbn [negb] in *; [|discriminate Hr].
  destruct (Write w (masterStatus c)) as [cause|] eqn:Hw; [|discriminate Hr].
  cbn in Hr. injection Hr as <-.
  split; [exists cause; split; reflexivity|]. split; [reflexivity|].
  destruct (Write w' (masterStatus c)); reflexivity.
Qed.

Lemma refused_write_is_retried_witness :
  trace (CanalGo.masterSave (Sample.deliver Sample.xid) Sample.shop)
    = [CallMasterSave; CallWrite (MasterStatusAt "log.1" 100) None].
Proof.
  destruct (refused_write_is_retried (Sample.diskFull Sample.xid)
              (Sample.deliver Sample.xid) Sample.shop
              (Wrap (ErrOther "disk full") "[binlogsync] failed to write into config")
              eq_refl) as [_ [_ Ht]].
  - vm_compute. intros D; discriminate D.
  - exact Ht.
Defined.


(** * What the linked loop returns, and what it asks of whom *)

Section LinkedErrors.

Variable update : string -> Z -> M unit.
Variable save : World -> M (option error).

Lemma iterationWith_returns w pos timeout c err :
  result (iterationWith update save w pos timeout c) = Return err ->
  exists cause msg,
    err = Wrap cause msg /\ In msg loopOrigins /\
    (msg = "[binlogsync] startSyncBinlog.GetEvent" ->
     GetEvent w = inr cause /\ cause <> DeadlineExceeded).
Proof.
  rewrite iterationWith_cases.
  destruct (GetEvent w) as [ev|e] eqn:E.
  - destruct (Event_ ev) as [r|r|id s t|].
    + destruct (firstError _) as [e|]; cbn [result fst]; [|discriminate].
      intros H; injection H as <-. exists e, "[binlogsync] startSyncBinlog.flushEventHandlers".
      split; [reflexivity|]. split; [cbn; tauto|]. intros D; discriminate D.
    + destruct (result (handleRowsEvent w ev c)) as [e|]; cbn [result fst]; [|discriminate].
      intros H; injection H as <-. exists e, "[binlogsync] handleRowsEvent".
      split; [reflexivity|]. split; [cbn; tauto|]. intros D; discriminate D.
    + discriminate.
    + discriminate.
  - destruct (error_eqb e DeadlineExceeded) eqn:Eq; cbn [result fst]; [discriminate|].
    intros H; injection H as <-. exists e, "[binlogsync] startSyncBinlog.GetEvent".
    split; [reflexivity|]. split; [cbn; tauto|]. intros _. split; [reflexivity|].
    intros ->. discriminate Eq.
Qed.

Lemma forLoopWith_returns ws : forall pos timeout c err,
  result (forLoopWith update save ws pos timeout c) = Returned err ->
  exists cause msg,
    err = Wrap cause msg /\ In msg loopOrigins /\
    (msg = "[binlogsync] startSyncBinlog.GetEvent" -> cause <> DeadlineExceeded).
Proof.
  induction ws as [|w ws IH]; intros pos timeout c err; [discriminate|].
  rewrite forLoopWith_cons.
  destruct (result (iterationWith update save w pos timeout c)) as [p d|e] eqn:R;
    cbn [result fst].
  - apply IH.
  - intros H; injection H as <-.
    destruct (iterationWith_returns w pos timeout c e R) as [cause [msg [H1 [H2 H3]]]].
    exists cause, msg. split; [exact H1|]. split; [exact H2|].
    intros Hm. apply (H3 Hm).
Qed.

End LinkedErrors.

Lemma run_run closed start ws c :
  Linked.run closed start ws c =
    match result (Linked.startSyncBinlog start ws c) with
    | Returned err =>
        (Returned (Wrap err "[binlogsync] run.startSyncBinlog"),
         canal (Linked.startSyncBinlog start ws c),
         trace (Linked.startSyncBinlog start ws c)
           ++ (if closed then []
               else [LogInfo
                       "[binlogsync] Canal start has encountered a sync binlog error"]))
    | Waiting pos timeout =>
        (Waiting pos timeout, canal (Linked.startSyncBinlog start ws c),
         trace (Linked.startSyncBinlog start ws c))
    end.
Proof.
  unfold Linked.run. rewrite bind_run.
  destruct (result (Linked.startSyncBinlog start ws c)).
  - rewrite bind_run. destruct closed;
      cbn [negb when call ret result canal trace fst snd app];
      rewrite ?app_nil_r; reflexivity.
  - cbn [ret result canal trace fst snd]. rewrite app_nil_r. reflexivity.
Qed.

Lemma startSyncBinlogWith_returns update save start ws c err :
  result (startSyncBinlogWith update save start ws c) = Returned err ->
  (start <> None /\
   err = Fatal "[binlogsync] Start sync replication at %s error %v") \/
  (start = None /\
   exists cause msg,
     err = Wrap cause msg /\ In msg loopOrigins /\
     (msg = "[binlogsync] startSyncBinlog.GetEvent" -> cause <> DeadlineExceeded)).
Proof.
  unfold startSyncBinlogWith.
  rewrite !bind_run. cbn [get result canal trace fst snd].
  destruct start as [e|].
  - cbn [ret result fst]. intros H; injection H as <-.
    left. split; [discriminate|reflexivity].
  - intros H. right. split; [reflexivity|].
    eapply forLoopWith_returns. exact H.
Qed.

(** X6.  [run] never returns without an error: what it returns is
    wrapped as coming from startSyncBinlog, around either the fatal
    error of a failed StartSync or an error wrapped under one of the
    three places of the loop that return -- and under the GetEvent one
    never the deadline of the wait.  Before it returns it logs the
    error, unless the canal is closed. *)
Theorem run_returns_errors_that_name_their_origin :
  forall closed start ws c err,
    result (Linked.run closed start ws c) = Returned err ->
    (exists inner,
       err = Wrap inner "[binlogsync] run.startSyncBinlog" /\
       ((start <> None /\
         inner = Fatal "[binlogsync] Start sync replication at %s error %v") \/
        (start = None /\
         exists cause msg,
           inner = Wrap cause msg /\ In msg loopOrigins /\
           (msg = "[binlogsync] startSyncBinlog.GetEvent" ->
            cause <> DeadlineExceeded)))) /\
    trace (Linked.run closed start ws c)
      = trace (Linked.startSyncBinlog start ws c)
          ++ (if closed then []
              else [LogInfo
                      "[binlogsync] Canal start has encountered a sync binlog error"]).
Proof.
  intros closed start ws c err. rewrite run_run.
  destruct (result (Linked.startSyncBinlog start ws c)) as [e|p d] eqn:R;
    cbn [result trace fst snd]; [|discriminate].
  intros H; injection H as <-.
  split; [|reflexivity].
  exists e. split; [reflexivity|].
  apply (startSyncBinlogWith_returns _ _ start ws c e R).
Qed.

Lemma run_returns_errors_that_name_their_origin_witness :
  exists cause msg,
    In msg loopOrigins /\
    result (Linked.run false None
              [Sample.deliver (Sample.rows "shop" replication.WRITE_ROWS_EVENTv1)]
              Sample.shop)
      = Returned (Wrap (Wrap cause msg) "[binlogsync] run.startSyncBinlog").
Proof.
  destruct (run_returns_errors_that_name_their_origin false None
              [Sample.deliver (Sample.rows "shop" replication.WRITE_ROWS_EVENTv1)]
              Sample.shop
              (Wrap (Wrap (ErrOther "boom") "[binlogsync] handleRowsEvent")
                    "[binlogsync] run.startSyncBinlog")
              eq_refl) as [[inner [Hw [[Hn _]|[_ [cause [msg [Hi [Hin _]]]]]]]] _].
  - exfalso. apply Hn. reflexivity.
  - exists cause, msg. split; [exact Hin|].
    rewrite <- Hi. injection Hw as <-. reflexivity.
Defined.

(** X7.  When the table of a RowsEvent of the target database cannot be
    resolved, whatever the subtype of the event, no handler is called
    and the position is not advanced: the loop returns the error of
    FindTable wrapped as GetTable and then as handleRowsEvent, whatever
    the event source would deliver next. *)
Theorem FindTable_failure_stops_the_loop :
  forall w ws pos timeout c ev e err,
    GetEvent w = inl ev -> Event_ ev = EvRows e ->
    dsn_DBName c = Table_Schema e ->
    FindTable w (GoInt.to_int (TableID e)) (Table_Table e) = inr err ->
    Linked.forLoop (w :: ws) pos timeout c
      = (Returned (Wrap (Wrap err "[binlogsync] GetTable %q.%q")
                        "[binlogsync] handleRowsEvent"),
         c,
         CallGetEvent (2 * Second)
           :: CallFindTable (GoInt.to_int (TableID e)) (Table_Table e)
           :: (if Log_IsInfo c
               then [LogInfo "[binlogsync] Rotate binlog to a new position"]
               else [])).
Proof.
  intros w ws pos timeout c ev e err E Ev Hdb Hft.
  unfold Linked.forLoop. rewrite forLoopWith_cons, iterationWith_cases, E, Ev.
  rewrite (handleRowsEvent_target w ev e c Ev Hdb), Hft.
  reflexivity.
Qed.

Lemma FindTable_failure_stops_the_loop_witness :
  result (Linked.forLoop
            [Sample.tableless (Sample.rows "shop" replication.WRITE_ROWS_EVENTv0);
             Sample.deliver Sample.xid]
            (masterStatus Sample.shop) Second Sample.shop)
    = Returned (Wrap (Wrap (ErrOther "no such table") "[binlogsync] GetTable %q.%q")
                     "[binlogsync] handleRowsEvent").
Proof.
  rewrite (FindTable_failure_stops_the_loop
             (Sample.tableless (Sample.rows "shop" replication.WRITE_ROWS_EVENTv0))
             [Sample.deliver Sample.xid] (masterStatus Sample.shop) Second Sample.shop
             (Sample.rows "shop" replication.WRITE_ROWS_EVENTv0)
             {| TableID := 7; Table_Schema := "shop";
                Table_Table := "orders"; Rows_ := [[CInt 1]] |}
             (ErrOther "no such table") eq_refl eq_refl eq_refl eq_refl).
  reflexivity.
Defined.

(** * What a pass reads *)

Section Reads.

Variable update : string -> Z -> M unit.
Variable save : World -> M (option error).

Lemma sameButOffset_refl a : sameButOffset a a.
Proof. reflexivity. Qed.

Lemma sameButOffset_set a b x :
  sameButOffset a b -> set_Position x a = set_Position x b.
Proof.
  unfold sameButOffset, set_Position. intros H.
  injection H as Hf Hd Hi Hg. rewrite Hf, Hd, Hi, Hg. reflexivity.
Qed.

Lemma sameButOffset_of_set p a : sameButOffset a (set_Position p a).
Proof. reflexivity. Qed.

Lemma positionAfter_sameButOffset ev a b :
  sameButOffset a b -> positionAfter ev a = positionAfter ev b.
Proof.
  intros H. unfold positionAfter.
  rewrite (sameButOffset_set a b _ H). reflexivity.
Qed.

Lemma iterationWith_offset_unread w a b timeout c :
  sameButOffset a b ->
  sameFlowButOffset (result (iterationWith update save w a timeout c))
                    (result (iterationWith update save w b timeout c)) /\
  canal (iterationWith update save w a timeout c)
    = canal (iterationWith update save w b timeout c) /\
  trace (iterationWith update save w a timeout c)
    = trace (iterationWith update save w b timeout c).
Proof.
  intros H. rewrite !iterationWith_cases.
  destruct (GetEvent w) as [ev|err].
  - unfold atLogPos. rewrite (sameButOffset_set a b _ H).
    rewrite (positionAfter_sameButOffset ev a b H).
    destruct (Event_ ev) as [e|e|id s t|].
    + destruct (firstError _); repeat split.
    + destruct (result (handleRowsEvent w ev c)); repeat split.
    + repeat split.
    + repeat split.
  - destruct (error_eqb err DeadlineExceeded); repeat split. exact H.
Qed.

Lemma forLoopWith_offset_unread ws : forall a b timeout c,
  sameButOffset a b ->
  sameOutcomeButOffset (result (forLoopWith update save ws a timeout c))
                       (result (forLoopWith update save ws b timeout c)) /\
  canal (forLoopWith update save ws a timeout c)
    = canal (forLoopWith update save ws b timeout c) /\
  trace (forLoopWith update save ws a timeout c)
    = trace (forLoopWith update save ws b timeout c).
Proof.
  induction ws as [|w ws IH]; intros a b timeout c H.
  - repeat split. exact H.
  - rewrite !forLoopWith_cons.
    destruct (iterationWith_offset_unread w a b timeout c H) as [Hf [Hc Ht]].
    rewrite <- Hc, <- Ht.
    destruct (result (iterationWith update save w a timeout c)) as [p1 d1|e1];
      destruct (result (iterationWith update save w b timeout c)) as [p2 d2|e2];
      cbn in Hf; try contradiction.
    + destruct Hf as [Hp <-].
      destruct (IH p1 p2 d1 (canal (iterationWith update save w a timeout c)) Hp)
        as [Ho [Hc' Ht']].
      cbn [result canal trace fst snd]. rewrite Ht'. auto.
    + subst. repeat split.
Qed.

Lemma forLoopWith_waitTimeouts ws : forall pos timeout c,
  forLoopWith update save (map waitTimeout ws) pos timeout c =
    (Waiting pos (doubled (List.length ws) timeout), c,
     repeat (CallGetEvent (2 * Second)) (List.length ws)).
Proof.
  induction ws as [|w ws IH]; intros pos timeout c; [reflexivity|].
  cbn [map]. rewrite forLoopWith_cons, iterationWith_cases.
  cbn [waitTimeout GetEvent error_eqb result canal trace fst snd]. rewrite IH.
  cbn [result canal trace fst snd List.length repeat app].
  unfold doubled. rewrite Nat.iter_succ_r. reflexivity.
Qed.

End Reads.

(** X8.  The offset the loop holds in [pos] at the top of a pass is
    never read: line 53 overwrites it before any use.  Two runs that
    start from positions differing in the offset only make the same
    calls, leave the same canal and end the same way, up to the offset
    of a run left waiting. *)
Theorem offset_at_the_top_of_the_loop_is_never_read :
  forall ws pos p timeout c,
    sameOutcomeButOffset (result (Linked.forLoop ws pos timeout c))
                         (result (Linked.forLoop ws (set_Position p pos) timeout c)) /\
    canal (Linked.forLoop ws pos timeout c)
      = canal (Linked.forLoop ws (set_Position p pos) timeout c) /\
    trace (Linked.forLoop ws pos timeout c)
      = trace (Linked.forLoop ws (set_Position p pos) timeout c).
Proof.
  intros ws pos p timeout c. unfold Linked.forLoop.
  apply forLoopWith_offset_unread, sameButOffset_of_set.
Qed.

Section RotateHeader.

Lemma CanalGo_masterSave_withEvent ev w c :
  CanalGo.masterSave (withEvent ev w) c = CanalGo.masterSave w c.
Proof. rewrite !CanalGo_masterSave_cases. reflexivity. Qed.

Lemma linked_savePosition_withEvent ev w p d c :
  savePositionWith CanalGo.masterUpdate CanalGo.masterSave (withEvent ev w) p d c
    = savePositionWith CanalGo.masterUpdate CanalGo.masterSave w p d c.
Proof. rewrite !savePositionWith_run, !CanalGo_masterSave_withEvent. reflexivity. Qed.

End RotateHeader.

(** X9.  Of a Rotate event the loop uses NextLogName and Position only:
    the header, with the trailing offset line 53 takes from it, has no
    effect on the pass. *)
Theorem Rotate_header_has_no_effect :
  forall w pos timeout c ev e h,
    GetEvent w = inl ev -> Event_ ev = EvRotate e ->
    Linked.iteration (withEvent {| Header := h; Event_ := EvRotate e |} w) pos timeout c
      = Linked.iteration w pos timeout c.
Proof.
  intros w pos timeout c ev e h E Ev.
  unfold Linked.iteration. rewrite !iterationWith_cases, E, Ev.
  cbn [withEvent GetEvent Event_].
  rewrite linked_savePosition_withEvent.
  replace (positionAfter {| Header := h; Event_ := EvRotate e |} pos)
    with (positionAfter ev pos)
    by (unfold positionAfter; rewrite Ev; reflexivity).
  reflexivity.
Qed.

Lemma Rotate_header_has_no_effect_witness :
  Linked.iteration
    (withEvent {| Header := {| EventType_ := replication.ROTATE_EVENT; LogPos := 0 |};
                  Event_ := EvRotate {| Rotate_Position := 4; NextLogName := "log.2" |} |}
               (Sample.deliver Sample.rotate))
    (masterStatus Sample.shop) Second Sample.shop
  = Linked.iteration (Sample.deliver Sample.rotate) (masterStatus Sample.shop)
                     Second Sample.shop.
Proof.
  apply (Rotate_header_has_no_effect (Sample.deliver Sample.rotate)
           (masterStatus Sample.shop) Second Sample.shop Sample.rotate
           {| Rotate_Position := 4; NextLogName := "log.2" |}
           {| EventType_ := replication.ROTATE_EVENT; LogPos := 0 |}
           eq_refl eq_refl).
Defined.

(** X10.  [startSyncBinlog] starts the syncer at the canal's segment and
    at its offset cut down to 32 bits, which is the canal's offset
    exactly when that is below 2^32; a StartSync that fails makes it
    return a fatal error without a single wait and without touching the
    canal, whatever the script. *)
Theorem StartSync_gets_the_offset_cut_to_32_bits :
  forall start ws c,
    (exists rest,
       trace (Linked.startSyncBinlog start ws c)
         = (if Log_IsInfo c then [LogInfo "[binlogsync] Start syncing of binlog"] else [])
           ++ CallStartSync (File (masterStatus c))
                            (Position (masterStatus c) mod 2 ^ 32)
           :: rest /\
       (start <> None ->
        rest = [] /\
        canal (Linked.startSyncBinlog start ws c) = c /\
        result (Linked.startSyncBinlog start ws c)
          = Returned (Fatal "[binlogsync] Start sync replication at %s error %v"))) /\
    (GoInt.is_uint64 (Position (masterStatus c)) ->
     (Position (masterStatus c) mod 2 ^ 32 = Position (masterStatus c)
      <-> Position (masterStatus c) < 2 ^ 32)).
Proof.
  intros start ws c. split.
  - unfold Linked.startSyncBinlog, startSyncBinlogWith.
    rewrite !bind_run. cbn [get result canal trace fst snd app].
    destruct start as [err|].
    + exists []. destruct (Log_IsInfo c); repeat split.
    + eexists. split.
      * destruct (Log_IsInfo c); cbn [when call ret canal trace fst snd app];
          reflexivity.
      * intros H. exfalso. apply H. reflexivity.
  - unfold GoInt.is_uint64. intros [Hlo Hhi]. split.
    + intros H. pose proof (Z.mod_pos_bound (Position (masterStatus c)) (2 ^ 32)). lia.
    + intros H. apply Z.mod_small. lia.
Qed.

Lemma StartSync_gets_the_offset_cut_to_32_bits_witness :
  trace (Linked.startSyncBinlog (Some (ErrOther "access denied"))
           [Sample.deliver Sample.xid]
           (set_masterStatus (MasterStatusAt "log.1" (2 ^ 32 + 4)) Sample.shop))
    = [CallStartSync "log.1" 4] /\
  ~ (2 ^ 32 + 4 < 2 ^ 32).
Proof.
  destruct (StartSync_gets_the_offset_cut_to_32_bits (Some (ErrOther "access denied"))
              [Sample.deliver Sample.xid]
              (set_masterStatus (MasterStatusAt "log.1" (2 ^ 32 + 4)) Sample.shop))
    as [[rest [Ht Hfail]] Hcut].
  destruct Hfail as [Hrest _]; [discriminate|]. subst rest.
  split; [exact Ht|].
  intros Hlt. apply Hcut in Hlt.
  - vm_compute in Hlt. discriminate Hlt.
  - vm_compute. split; [intros D; discriminate D | reflexivity].
Defined.

(** * Who is called for which event *)

Section CallKinds.

Lemma linked_savePosition_kinds w p d c :
  forallb isPositionCall
    (trace (savePositionWith CanalGo.masterUpdate CanalGo.masterSave w p d c)) = true.
Proof.
  rewrite savePositionWith_run. cbn [trace snd].
  rewrite CanalGo_masterUpdate_spec, masterUpdate_spec. cbn [canal trace fst snd app].
  rewrite CanalGo_masterSave_cases.
  destruct (Now w - masterLastSaveTime _ <? Second); [reflexivity|].
  destruct (negb (hasCheckpointStore _)).
  - destruct (Log_IsDebug _); reflexivity.
  - destruct (Write w _); reflexivity.
Qed.

Lemma no_handler_in_savePosition w p d c :
  existsb (fun x => isOnFlush x || isFindTable x || isOnRowChange x)
    (trace (savePositionWith CanalGo.masterUpdate CanalGo.masterSave w p d c)) = false.
Proof.
  eapply existsb_none; [|apply linked_savePosition_kinds].
  intros x; destruct x; cbn; congruence.
Qed.

Lemma existsb_weaken {A} (P Q : A -> bool) (l : list A) :
  (forall x, P x = true -> Q x = true) ->
  existsb Q l = false -> existsb P l = false.
Proof.
  intros HPQ. induction l as [|x l IH]; cbn; [reflexivity|].
  intros H. apply orb_false_iff in H as [Hx Hl].
  rewrite (IH Hl). destruct (P x) eqn:E; [|reflexivity].
  rewrite (HPQ x E) in Hx. discriminate Hx.
Qed.

Lemma no_flush_in_handleRowsEvent w e c :
  existsb isOnFlush (trace (handleRowsEvent w e c)) = false.
Proof.
  eapply existsb_none; [|apply handleRowsEvent_trace].
  intros x; destruct x; cbn; congruence.
Qed.

Lemma no_rows_calls_in_flush ms n i :
  existsb (fun x => isFindTable x || isOnRowChange x)
          (map (fun j => CallOnFlush j ms) (seq i n)) = false.
Proof.
  apply (existsb_none isOnFlush).
  - intros x; destruct x; cbn; congruence.
  - apply forallb_map_seq. reflexivity.
Qed.

End CallKinds.

(** X11.  Handlers are told of a flush only in a pass that consumes a
    Rotate event; a table is resolved and rows are dispatched only in a
    pass that consumes a RowsEvent of the configured database. *)
Theorem handlers_are_called_for_their_events_only :
  forall w pos timeout c,
    (existsb isOnFlush (trace (Linked.iteration w pos timeout c)) = true ->
     exists ev e, GetEvent w = inl ev /\ Event_ ev = EvRotate e) /\
    (existsb (fun x => isFindTable x || isOnRowChange x)
             (trace (Linked.iteration w pos timeout c)) = true ->
     exists ev e, GetEvent w = inl ev /\ Event_ ev = EvRows e /\
                  dsn_DBName c = Table_Schema e).
Proof.
  intros w pos timeout c. unfold Linked.iteration. rewrite iterationWith_cases.
  assert (Hsf : forall p, existsb isOnFlush
            (trace (savePositionWith CanalGo.masterUpdate CanalGo.masterSave
                                     w p Second c)) = false).
  { intros p. eapply existsb_weaken; [|apply no_handler_in_savePosition].
    intros x; destruct x; cbn; congruence. }
  assert (Hsr : forall p, existsb (fun x => isFindTable x || isOnRowChange x)
            (trace (savePositionWith CanalGo.masterUpdate CanalGo.masterSave
                                     w p Second c)) = false).
  { intros p. eapply existsb_weaken; [|apply no_handler_in_savePosition].
    intros x; destruct x; cbn; congruence. }
  destruct (GetEvent w) as [ev|err] eqn:E.
  - destruct (Event_ ev) as [e|e|id s t|] eqn:Ev.
    + split; [intros _; exists ev, e; split; [reflexivity|exact Ev]|].
      destruct (firstError _); cbn [trace snd existsb isFindTable isOnRowChange orb].
      * rewrite no_rows_calls_in_flush. discriminate.
      * rewrite !existsb_app, no_rows_calls_in_flush, Hsr.
        destruct (Log_IsInfo c); discriminate.
    + split.
      * destruct (result (handleRowsEvent w ev c));
          cbn [trace snd existsb isOnFlush orb];
          rewrite !existsb_app, no_flush_in_handleRowsEvent, ?Hsf.
        -- destruct (Log_IsInfo c); discriminate.
        -- discriminate.
      * destruct (String.eqb_spec (dsn_DBName c) (Table_Schema e)) as [Hdb|Hdb].
        -- intros _. exists ev, e. repeat split; assumption.
        -- rewrite (handleRowsEvent_skip w ev e c Ev Hdb).
           cbn [result canal trace fst snd existsb isFindTable isOnRowChange orb].
           rewrite !existsb_app, Hsr.
           destruct (Log_IsDebug c); discriminate.
    + split; discriminate.
    + cbn [trace snd existsb isOnFlush isFindTable isOnRowChange orb].
      rewrite Hsf, Hsr. split; discriminate.
  - destruct (error_eqb err DeadlineExceeded); split; discriminate.
Qed.

Lemma handlers_are_called_for_their_events_only_witness :
  exists ev e,
    GetEvent (Sample.deliver (Sample.rows "shop" replication.DELETE_ROWS_EVENTv2)) = inl ev /\
    Event_ ev = EvRows e /\ dsn_DBName Sample.shop = Table_Schema e.
Proof.
  destruct (handlers_are_called_for_their_events_only
              (Sample.deliver (Sample.rows "shop" replication.DELETE_ROWS_EVENTv2))
              (masterStatus Sample.shop) Second Sample.shop) as [_ H].
  apply H. reflexivity.
Defined.

(** * The doubling of [timeout] *)

Section Doubling.

Lemma Second_is_int64 : GoInt.is_int64 Second.
Proof. unfold GoInt.is_int64, Second. lia. Qed.

Lemma doubled_Second_small n :
  (n <= 33)%nat -> doubled n Second = 2 ^ Z.of_nat n * Second.
Proof.
  intros Hn. rewrite (doubled_closed n Second Second_is_int64).
  apply GoIntFacts.to_int64_small. unfold GoInt.is_int64, Second.
  assert (H : 0 < 2 ^ Z.of_nat n <= 2 ^ 33).
  { split; [apply Z.pow_pos_nonneg; lia|apply Z.pow_le_mono_r; lia]. }
  lia.
Qed.

Lemma doubled_Second_zero n :
  (55 <= n)%nat -> doubled n Second = 0.
Proof.
  intros Hn. rewrite (doubled_closed n Second Second_is_int64).
  replace (Z.of_nat n) with (Z.of_nat (n - 55) + 55) by lia.
  rewrite Z.pow_add_r by lia.
  unfold GoInt.to_int64, Second.
  replace (2 ^ Z.of_nat (n - 55) * 2 ^ 55 * 1000000000 + 2 ^ 63)
    with (2 ^ 63 + (2 ^ Z.of_nat (n - 55) * 1953125) * 2 ^ 64) by lia.
  rewrite Z.mod_add by lia. reflexivity.
Qed.

End Doubling.

(** X12.  The [timeout] variable is back at one second after every pass
    that consumes an event; over [n] wait-timeouts in a row from there
    it is [2^n] seconds up to [n = 33], negative at [n = 34], where the
    doubling leaves the 64 bits of a Duration, and zero from [n = 55]
    on. *)
Theorem timeout_doubling_overflows :
  (forall w pos timeout c ev pos' timeout',
     GetEvent w = inl ev ->
     result (Linked.iteration w pos timeout c) = Continue pos' timeout' ->
     timeout' = Second) /\
  (forall ws pos c,
     result (Linked.forLoop (map waitTimeout ws) pos Second c)
       = Waiting pos (doubled (List.length ws) Second)) /\
  (forall n, (n <= 33)%nat -> doubled n Second = 2 ^ Z.of_nat n * Second) /\
  doubled 34 Second < 0 /\
  (forall n, (55 <= n)%nat -> doubled n Second = 0).
Proof.
  split; [|split; [|split; [|split]]].
  - intros w pos timeout c ev pos' timeout' E.
    unfold Linked.iteration. rewrite iterationWith_cases, E.
    destruct (Event_ ev) as [e|e|id s t|].
    + destruct (firstError _); cbn [result fst]; [discriminate|].
      intros H; injection H as _ <-. reflexivity.
    + destruct (result (handleRowsEvent w ev c)); cbn [result fst]; [discriminate|].
      intros H; injection H as _ <-. reflexivity.
    + cbn [result fst]. intros H; injection H as _ <-. reflexivity.
    + cbn [result fst]. intros H; injection H as _ <-. reflexivity.
  - intros ws pos c. unfold Linked.forLoop. rewrite forLoopWith_waitTimeouts. reflexivity.
  - apply doubled_Second_small.
  - vm_compute. reflexivity.
  - apply doubled_Second_zero.
Qed.

Lemma timeout_doubling_overflows_witness :
  doubled 3 Second = 8 * Second /\ doubled 64 Second = 0 /\
  exists pos',
    result (Linked.iteration (Sample.deliver Sample.xid) (masterStatus Sample.shop)
                             (doubled 34 Second) Sample.shop)
      = Continue pos' Second.
Proof.
  destruct timeout_doubling_overflows as [Hreset [_ [Hsmall [_ Hzero]]]].
  split; [apply (Hsmall 3%nat); lia|].
  split; [apply (Hzero 64%nat); lia|].
  destruct (result (Linked.iteration (Sample.deliver Sample.xid)
                      (masterStatus Sample.shop) (doubled 34 Second) Sample.shop))
    as [p d|err] eqn:R.
  - exists p.
    rewrite (Hreset (Sample.deliver Sample.xid) (masterStatus Sample.shop)
               (doubled 34 Second) Sample.shop Sample.xid p d eq_refl R).
    reflexivity.
  - revert R. vm_compute. intros R; discriminate R.
Defined.

(** * canal.go: closing *)

Section Closing.

Lemma Close_closed a s : closed s = true -> Close a s = (None, s, []).
Proof. unfold Close, isClosed. intros ->. reflexivity. Qed.

Lemma Closes_closed answers : forall s,
  closed s = true ->
  Closes answers s = (repeat None (List.length answers), s, []).
Proof.
  induction answers as [|a answers IH]; intros s Hs; [reflexivity|].
  cbn [Closes]. rewrite (Close_closed a s Hs), (IH s Hs). reflexivity.
Qed.

Lemma Close_open a s :
  closed s = false ->
  Close a s =
    (option_map (fun err => Wrap err "[binlogsync] DB close error") a,
     {| closed := true; hasSyncer := false |},
     (if hasSyncer s then [SyncerClose] else [])
       ++ DBClose :: (match a with None => [WaitGroupWait] | Some _ => [] end)).
Proof.
  unfold Close, isClosed. intros ->.
  destruct s as [cl sy]. cbn. destruct sy, a; reflexivity.
Qed.

End Closing.

(** X13.  [Close] works once.  On an open canal the first call closes
    the syncer if there is one, then the database, and waits for the
    loop only if the database closed without error; it leaves the canal
    closed and without syncer.  Every later call, and every call on a
    closed canal, does nothing and returns no error -- so after a
    database close that failed no call to [Close] ever waits for the
    loop. *)
Theorem Close_works_once :
  forall a answers s,
    (closed s = true ->
     Closes answers s = (repeat None (List.length answers), s, [])) /\
    (closed s = false ->
     Closes (a :: answers) s
       = (option_map (fun err => Wrap err "[binlogsync] DB close error") a
            :: repeat None (List.length answers),
          {| closed := true; hasSyncer := false |},
          (if hasSyncer s then [SyncerClose] else [])
            ++ DBClose :: (match a with None => [WaitGroupWait] | Some _ => [] end)) /\
     (existsb isWait (snd (Closes (a :: answers) s)) = true <-> a = None)).
Proof.
  intros a answers s. split; [apply Closes_closed|].
  intros Hs.
  assert (H : Closes (a :: answers) s
              = (option_map (fun err => Wrap err "[binlogsync] DB close error") a
                   :: repeat None (List.length answers),
                 {| closed := true; hasSyncer := false |},
                 (if hasSyncer s then [SyncerClose] else [])
                   ++ DBClose :: (match a with None => [WaitGroupWait] | Some _ => [] end))).
  { cbn [Closes]. rewrite (Close_open a s Hs).
    rewrite (Closes_closed answers {| closed := true; hasSyncer := false |} eq_refl).
    rewrite app_nil_r. reflexivity. }
  split; [exact H|]. rewrite H. cbn [snd].
  destruct (hasSyncer s), a; cbn; split; congruence.
Qed.

Lemma Close_works_once_witness :
  Closes [Some (ErrOther "connection is busy"); None; None]
         {| closed := false; hasSyncer := true |}
    = ([Some (Wrap (ErrOther "connection is busy") "[binlogsync] DB close error");
        None; None],
       {| closed := true; hasSyncer := false |},
       [SyncerClose; DBClose]) /\
  Closes [None; None] {| closed := true; hasSyncer := true |}
    = ([None; None], {| closed := true; hasSyncer := true |}, []).
Proof.
  split.
  - destruct (Close_works_once (Some (ErrOther "connection is busy")) [None; None]
                {| closed := false; hasSyncer := true |}) as [_ H].
    destruct (H eq_refl) as [Heq _]. exact Heq.
  - destruct (Close_works_once None [None; None]
                {| closed := true; hasSyncer := true |}) as [H _].
    exact (H eq_refl).
Defined.

(** * canal.go: parameters of the DSN *)

Section DSNParams.

Lemma moveParam_spec m cp p :
  moveParam (m, cp) p =
    match m p with
    | Some v => if nonEmpty (m p) then (deleteParam p m, setParam p v cp) else (m, cp)
    | None => (m, cp)
    end.
Proof.
  unfold moveParam, nonEmpty. cbn [fst snd].
  destruct (m p) as [v|]; reflexivity.
Qed.

Lemma moveParams_spec keys : forall m cp k,
  if existsb (String.eqb k) keys && nonEmpty (m k)
  then snd (fold_left moveParam keys (m, cp)) k = m k /\
       fst (fold_left moveParam keys (m, cp)) k = None
  else fst (fold_left moveParam keys (m, cp)) k = m k /\
       snd (fold_left moveParam keys (m, cp)) k = cp k.
Proof.
  induction keys as [|p keys IH]; intros m cp k.
  - cbn. split; reflexivity.
  - cbn [fold_left existsb]. rewrite moveParam_spec.
    destruct (String.eqb_spec k p) as [->|Hk]; cbn [orb].
    + destruct (m p) as [v|] eqn:Hp.
      * destruct (nonEmpty (Some v)) eqn:Hn; cbn [andb].
        -- specialize (IH (deleteParam p m) (setParam p v cp) p).
           unfold deleteParam at 1, setParam at 3 in IH.
           rewrite String.eqb_refl in IH. cbn [nonEmpty] in IH.
           rewrite andb_false_r in IH.
           unfold deleteParam at 2, setParam at 2 in IH.
           rewrite String.eqb_refl in IH.
           destruct IH as [H1 H2]. split; assumption.
        -- specialize (IH m cp p). rewrite Hp, Hn, andb_false_r in IH. exact IH.
      * specialize (IH m cp p). rewrite Hp in IH. cbn [nonEmpty] in IH.
        rewrite andb_false_r in IH. cbn [nonEmpty andb]. exact IH.
    + assert (Hd : forall v, deleteParam p m k = m k /\ setParam p v cp k = cp k).
      { intros v. unfold deleteParam, setParam.
        destruct (String.eqb_spec k p); [contradiction|]. split; reflexivity. }
      destruct (m p) as [v|] eqn:Hp; [|apply IH].
      destruct (nonEmpty (Some v)); [|apply IH].
      specialize (IH (deleteParam p m) (setParam p v cp) k).
      destruct (Hd v) as [Hd1 Hd2]. rewrite Hd1, Hd2 in IH. exact IH.
Qed.

Lemma flavor_spec cp :
  flavor cp = if match cp "flavor" with
                 | Some v => String.eqb v MariaDBFlavor
                 | None => false
                 end
              then MariaDBFlavor else MySQLFlavor.
Proof.
  unfold flavor. destruct (cp "flavor") as [v|]; [|reflexivity].
  destruct (String.eqb_spec v "") as [->|Hv]; [reflexivity|]. cbn [negb].
  destruct (String.eqb_spec v ""); [contradiction|]. reflexivity.
Qed.

End DSNParams.

(** X14.  [NewCanal] splits the parameters of the DSN without losing or
    doubling any: each of the four custom parameters that is present
    with a value other than the empty string moves, with its value, from
    the DSN to the canal's own map; every other entry -- a custom
    parameter given as the empty string among them -- stays in the DSN
    and is not in the canal's map.  A DSN without parameters is left
    without. *)
Theorem NewCanal_moves_the_custom_parameters :
  moveCustomParams None = (None, noParams) /\
  forall m,
    exists m',
      fst (moveCustomParams (Some m)) = Some m' /\
      forall k,
        if existsb (String.eqb k) customMySQLParams && nonEmpty (m k)
        then snd (moveCustomParams (Some m)) k = m k /\ m' k = None
        else m' k = m k /\ snd (moveCustomParams (Some m)) k = None.
Proof.
  split; [reflexivity|].
  intros m. unfold moveCustomParams. cbn [fst snd].
  eexists. split; [reflexivity|].
  intros k. apply (moveParams_spec customMySQLParams m noParams k).
Qed.

(** X15.  After [NewCanal], [flavor] answers mariadb exactly when the
    DSN carried the parameter flavor with the value mariadb, in that
    spelling; for every other value, and without the parameter, it
    answers mysql. *)
Theorem flavor_is_mariadb_only_when_asked_for :
  forall m,
    (flavor (snd (moveCustomParams (Some m))) = MariaDBFlavor
     <-> m "flavor" = Some "mariadb") /\
    (flavor (snd (moveCustomParams (Some m))) = MySQLFlavor
     <-> m "flavor" <> Some "mariadb") /\
    flavor (snd (moveCustomParams None)) = MySQLFlavor.
Proof.
  intros m.
  assert (Hcp : snd (moveCustomParams (Some m)) "flavor"
                = if nonEmpty (m "flavor") then m "flavor" else None).
  { unfold moveCustomParams. cbn [fst snd].
    pose proof (moveParams_spec customMySQLParams m noParams "flavor") as H.
    replace (existsb (String.eqb "flavor") customMySQLParams) with true in H
      by reflexivity.
    cbn [andb] in H. destruct (nonEmpty (m "flavor")); destruct H as [H1 H2]; assumption. }
  assert (Hf : flavor (snd (moveCustomParams (Some m)))
               = if match m "flavor" with
                    | Some v => String.eqb v MariaDBFlavor
                    | None => false
                    end
                 then MariaDBFlavor else MySQLFlavor).
  { rewrite flavor_spec, Hcp. unfold nonEmpty.
    destruct (m "flavor") as [v|]; [|reflexivity].
    destruct (String.eqb_spec v "") as [->|Hv]; reflexivity. }
  rewrite Hf. split; [|split; [|reflexivity]].
  - destruct (m "flavor") as [v|]; [|split; discriminate].
    destruct (String.eqb_spec v MariaDBFlavor) as [->|Hv].
    + split; reflexivity.
    + split; [discriminate|]. intros H; injection H as ->. contradiction.
  - destruct (m "flavor") as [v|]; [|split; [discriminate|reflexivity]].
    destruct (String.eqb_spec v MariaDBFlavor) as [->|Hv].
    + split; [discriminate|]. intros H. exfalso. apply H. reflexivity.
    + split; [|reflexivity]. intros _ H. injection H as ->. contradiction.
Qed.

(** X16.  [withUpdateBinlogStart] fails only when the load of the
    master status fails.  Otherwise the canal starts at the status
    found on the server, with the segment replaced by the parameter
    BinlogStartFile when that is not empty, and the offset replaced by
    the parameter BinlogStartPosition only when that reads as 4 or
    more: a smaller one is ignored, so that an offset of 4 or more on
    the server is never lowered below 4. *)
Theorem withUpdateBinlogStart_ignores_offsets_below_4 :
  forall ToUint cp loaded c,
    match withUpdateBinlogStart ToUint cp loaded c with
    | inr err =>
        exists cause, loaded = inr cause /\
                      err = Wrap cause "[binlogsync] ShowMasterStatus Load"
    | inl c' =>
        exists ms,
          loaded = inl ms /\
          File (masterStatus c')
            = (if nonEmpty (cp "BinlogStartFile")
               then match cp "BinlogStartFile" with Some v => v | None => File ms end
               else File ms) /\
          Position (masterStatus c')
            = (if nonEmpty (cp "BinlogStartPosition")
               then match cp "BinlogStartPosition" with
                    | Some v => if 4 <=? ToUint v then ToUint v else Position ms
                    | None => Position ms
                    end
               else Position ms) /\
          (4 <= Position ms -> 4 <= Position (masterStatus c')) /\
          c' = set_masterStatus
                 (set_Position (Position (masterStatus c'))
                    (set_File (File (masterStatus c')) ms)) c
    end.
Proof.
  intros ToUint cp loaded c. unfold withUpdateBinlogStart.
  destruct loaded as [ms|cause]; [|exists cause; split; reflexivity].
  exists ms. split; [reflexivity|].
  unfold nonEmpty.
  destruct (cp "BinlogStartFile") as [f|];
    [destruct (String.eqb f "")|];
    (destruct (cp "BinlogStartPosition") as [v|];
     [destruct (String.eqb v "")|]);
    cbn [negb];
    try (destruct (Z.leb_spec 4 (ToUint v)));
    cbn; repeat split; try lia; destruct ms; reflexivity.
Qed.

Lemma withUpdateBinlogStart_ignores_offsets_below_4_witness :
  exists c',
    withUpdateBinlogStart sampleToUint sampleParams
      (inl (MasterStatusAt "mysql-bin.000001" 3581378)) Sample.shop = inl c' /\
    masterStatus c' = MasterStatusAt "mysql-bin.000002" 3581378 /\
    4 <= Position (masterStatus c').
Proof.
  pose proof (withUpdateBinlogStart_ignores_offsets_below_4 sampleToUint sampleParams
                (inl (MasterStatusAt "mysql-bin.000001" 3581378)) Sample.shop) as H.
  destruct (withUpdateBinlogStart sampleToUint sampleParams
              (inl (MasterStatusAt "mysql-bin.000001" 3581378)) Sample.shop)
    as [c'|err] eqn:E.
  - exists c'. split; [reflexivity|].
    destruct H as [ms [Hms [_ [_ [Hfour _]]]]].
    injection Hms as <-.
    split.
    + revert E. vm_compute. intros E; injection E as <-. reflexivity.
    + apply Hfour. vm_compute. intros D; discriminate D.
  - destruct H as [cause [Hl _]]. discriminate Hl.
Defined.

(** * Without a checkpoint store *)

Section Setup.

Lemma sameSetup_refl c : sameSetup c c.
Proof. repeat split. Qed.

Lemma sameSetup_trans a b c : sameSetup a b -> sameSetup b c -> sameSetup a c.
Proof.
  unfold sameSetup. intros [H1 [H2 [H3 [H4 H5]]]] [K1 [K2 [K3 [K4 K5]]]].
  repeat split; congruence.
Qed.

(** Lines 83 to 86 linked with canal.go keep the setup; without a
    store they attempt no write and keep the time of the last save. *)
Lemma linked_savePosition_setup w p d c :
  sameSetup c (canal (savePositionWith CanalGo.masterUpdate CanalGo.masterSave w p d c)) /\
  (hasCheckpointStore c = false ->
   existsb isWriteAttempt
     (trace (savePositionWith CanalGo.masterUpdate CanalGo.masterSave w p d c)) = false /\
   masterLastSaveTime
     (canal (savePositionWith CanalGo.masterUpdate CanalGo.masterSave w p d c))
     = masterLastSaveTime c).
Proof.
  rewrite savePositionWith_run. cbn [canal trace fst snd].
  rewrite CanalGo_masterUpdate_spec, masterUpdate_spec. cbn [canal trace fst snd app].
  rewrite CanalGo_masterSave_cases.
  cbn [set_masterStatus masterLastSaveTime hasCheckpointStore masterStatus Log_IsDebug].
  destruct (Now w - masterLastSaveTime c <? Second).
  - split; [repeat split|]. intros _. split; reflexivity.
  - destruct (hasCheckpointStore c) eqn:Hs; cbn [negb].
    + destruct (Write w _); (split; [repeat split; cbn; congruence|discriminate]).
    + split; [repeat split; cbn; congruence|].
      intros _. destruct (Log_IsDebug c); split; reflexivity.
Qed.

Lemma no_write_in_flush ms n i :
  existsb isWriteAttempt (map (fun j => CallOnFlush j ms) (seq i n)) = false.
Proof.
  apply (existsb_none isOnFlush).
  - intros x; destruct x; cbn; congruence.
  - apply forallb_map_seq. reflexivity.
Qed.

Lemma no_write_in_handleRowsEvent w e c :
  existsb isWriteAttempt (trace (handleRowsEvent w e c)) = false.
Proof.
  eapply existsb_none; [|apply handleRowsEvent_trace].
  intros x; destruct x; cbn; congruence.
Qed.

Lemma linked_iteration_setup w pos timeout c :
  sameSetup c (canal (Linked.iteration w pos timeout c)) /\
  (hasCheckpointStore c = false ->
   existsb isWriteAttempt (trace (Linked.iteration w pos timeout c)) = false /\
   masterLastSaveTime (canal (Linked.iteration w pos timeout c))
     = masterLastSaveTime c).
Proof.
  unfold Linked.iteration. rewrite iterationWith_cases.
  assert (Hkeep : forall (f : Flow) t,
             existsb isWriteAttempt t = false ->
             sameSetup c (canal (f, c, t)) /\
             (hasCheckpointStore c = false ->
              existsb isWriteAttempt (trace (f, c, t)) = false /\
              masterLastSaveTime (canal (f, c, t)) = masterLastSaveTime c)).
  { intros f t Ht. split; [apply sameSetup_refl|]. intros _. split; [exact Ht|reflexivity]. }
  assert (Hsave : forall (f : Flow) pre p,
             existsb isWriteAttempt pre = false ->
             let r := (f, canal (savePositionWith CanalGo.masterUpdate CanalGo.masterSave
                                                  w p Second c),
                       pre ++ trace (savePositionWith CanalGo.masterUpdate
                                       CanalGo.masterSave w p Second c)) in
             sameSetup c (canal r) /\
             (hasCheckpointStore c = false ->
              existsb isWriteAttempt (trace r) = false /\
              masterLastSaveTime (canal r) = masterLastSaveTime c)).
  { intros f pre p Hpre r.
    destruct (linked_savePosition_setup w p Second c) as [Hs Hn].
    split; [exact Hs|]. intros Hc. destruct (Hn Hc) as [Hw Hl].
    subst r. cbn [canal trace fst snd]. rewrite existsb_app, Hpre, Hw. auto. }
  destruct (GetEvent w) as [ev|err].
  - destruct (Event_ ev) as [e|e|id s t|].
    + destruct (firstError _).
      * apply Hkeep. apply (no_write_in_flush _ _ 0).
      * rewrite app_comm_cons, app_assoc. apply Hsave.
        rewrite existsb_app. cbn [existsb isWriteAttempt orb].
        rewrite no_write_in_flush. destruct (Log_IsInfo c); reflexivity.
    + destruct (result (handleRowsEvent w ev c)).
      * apply Hkeep. cbn [existsb isWriteAttempt orb].
        rewrite existsb_app, no_write_in_handleRowsEvent.
        destruct (Log_IsInfo c); reflexivity.
      * rewrite app_comm_cons. apply Hsave. cbn [existsb isWriteAttempt orb].
        apply no_write_in_handleRowsEvent.
    + apply Hkeep. reflexivity.
    + apply (Hsave _ [CallGetEvent (2 * Second)]). reflexivity.
  - destruct (error_eqb err DeadlineExceeded); apply Hkeep; reflexivity.
Qed.

Lemma linked_forLoop_setup ws : forall pos timeout c,
  sameSetup c (canal (Linked.forLoop ws pos timeout c)) /\
  (hasCheckpointStore c = false ->
   existsb isWriteAttempt (trace (Linked.forLoop ws pos timeout c)) = false /\
   masterLastSaveTime (canal (Linked.forLoop ws pos timeout c))
     = masterLastSaveTime c).
Proof.
  induction ws as [|w ws IH]; intros pos timeout c.
  - split; [apply sameSetup_refl|]. intros _. split; reflexivity.
  - unfold Linked.forLoop. rewrite forLoopWith_cons.
    fold Linked.forLoop. fold (Linked.iteration w pos timeout c).
    destruct (linked_iteration_setup w pos timeout c) as [Hs Hn].
    destruct (result (Linked.iteration w pos timeout c)) as [p d|err];
      cbn [canal trace fst snd]; [|split; assumption].
    destruct (IH p d (canal (Linked.iteration w pos timeout c))) as [Hs' Hn'].
    split; [eapply sameSetup_trans; eassumption|].
    intros Hc. destruct (Hn Hc) as [Hw Hl].
    destruct Hs as [_ [_ [_ [_ Hstore]]]].
    destruct (Hn' (eq_trans (eq_sym Hstore) Hc)) as [Hw' Hl'].
    rewrite existsb_app, Hw, Hw', Hl'. auto.
Qed.

End Setup.

(** X17.  A run of the loop changes nothing of the canal but its
    position and the time of the last save: database name, log
    switches, handlers and checkpoint store stay as they were.  Without
    a checkpoint store it never attempts a write, and the time of the
    last save stays too, whatever arrives. *)
Theorem loop_without_store_never_writes :
  forall ws pos timeout c,
    sameSetup c (canal (Linked.forLoop ws pos timeout c)) /\
    (hasCheckpointStore c = false ->
     existsb isWriteAttempt (trace (Linked.forLoop ws pos timeout c)) = false /\
     masterLastSaveTime (canal (Linked.forLoop ws pos timeout c))
       = masterLastSaveTime c).
Proof. intros ws pos timeout c. apply linked_forLoop_setup. Qed.

Lemma loop_without_store_never_writes_witness :
  existsb isWriteAttempt
    (trace (Linked.forLoop
              [Sample.deliver Sample.rotate; Sample.deliver Sample.xid]
              (masterStatus Sample.storeless) Second Sample.storeless)) = false /\
  masterLastSaveTime
    (canal (Linked.forLoop
              [Sample.deliver Sample.rotate; Sample.deliver Sample.xid]
              (masterStatus Sample.storeless) Second Sample.storeless)) = 0.
Proof.
  destruct (loop_without_store_never_writes
              [Sample.deliver Sample.rotate; Sample.deliver Sample.xid]
              (masterStatus Sample.storeless) Second Sample.storeless) as [_ H].
  exact (H eq_refl).
Defined.
